(** * packer-plugin-podman: the Communicator and the build steps

    A shallow embedding of [builder/podman/communicator.go] (the
    Communicator and the Pull step) and of [builder/podman/step_run.go].

    Go strings and byte slices are [string] (a sequence of bytes), Go [int]
    is [Z], a Go [error] is its message ([option string], [None] for nil).
    Every function that talks to the engine, the file system or the lock is
    written in a small writer-and-error monad: it produces the ordered list of
    its observable events together with its result (a value, an error return
    or a panic).  What the outside world answers (whether a pipe could be
    opened, what the engine wrote on its streams, how the process ended) is
    an explicit environment record passed to the function. *)

From Stdlib Require Import ZArith Ascii String List Lia Bool.
From stdpp Require Import base option list strings pretty gmap.

Local Open Scope string_scope.
Local Open Scope list_scope.

(* ===================================================================== *)
(** ** Results, events and the monad                                      *)
(* ===================================================================== *)

(** How a Go call ends: it returns a value (for a function returning only
    [error], the value is [tt] and stands for nil), it returns a non-nil
    error, or it panics. *)
Inductive Res (A : Type) : Type :=
| Ok (a : A)
| Err (e : string)
| Panic (msg : string).
Arguments Ok {A} a.
Arguments Err {A} e.
Arguments Panic {A} msg.

(** The two output streams of a process. *)
Inductive Stream := StdoutPipe | StderrPipe.

(** Observable events, in the order the code performs them. *)
Inductive Event : Type :=
| EvLock                                      (* c.lock.Lock() returned *)
| EvUnlock                                    (* c.lock.Unlock() *)
| EvLog (msg : string)                        (* log.Printf *)
| EvStart (argv : list string) (ok : bool)    (* cmd.Start(): process spawned or not *)
| EvWait (argv : list string)                 (* cmd.Wait() returned *)
| EvRun (argv : list string)                  (* exec.Command(...).CombinedOutput() *)
| EvGoCopy (s : Stream)                       (* go repeat(sink, pipe) *)
| EvGoStdin                                   (* go func() { io.Copy(stdin, remote.Stdin); stdin.Close() } *)
| EvWgWait (n : nat)                          (* wg.Wait() returned, n copiers joined *)
| EvSetExited (status : Z)                    (* remote.SetExited(status) *)
| EvTarHeader (name : string) (size : Z) (isdir : bool)  (* archive.WriteHeader *)
| EvTarBody (body : string)                   (* bytes accepted by the tar writer *)
| EvTarClose                                  (* archive.Close() *)
| EvStdinClose                                (* stdin.Close() *)
| EvReadStderr (out : string)                 (* io.ReadAll(stderrP) *)
| EvWriteDst (body : string)                  (* bytes written to the Download writer *)
| EvCreateTemp (dir : string)                 (* os.CreateTemp(dir, "upload") *)
| EvWriteTemp (body : string)                 (* io.Copy(tempfile, src) *)
| EvCloseTemp                                 (* deferred tempfile.Close() *)
| EvRemoveTemp                                (* deferred os.Remove(tempfile.Name()) *)
| EvStderrPrint (msg : string).               (* fmt.Fprintf(os.Stderr, ...) *)

Definition M (A : Type) : Type := (list Event * Res A)%type.

Definition ret {A} (a : A) : M A := ([], Ok a).
Definition fail {A} (e : string) : M A := ([], Err e).
Definition panic {A} (msg : string) : M A := ([], Panic msg).
Definition emit (e : Event) : M unit := ([e], Ok tt).

Definition bind {A B} (m : M A) (k : A -> M B) : M B :=
  match m with
  | (evs, Ok a) => let '(evs', r) := k a in (evs ++ evs', r)
  | (evs, Err e) => (evs, Err e)
  | (evs, Panic p) => (evs, Panic p)
  end.

Notation "'do' x <- m ; k" := (bind m (fun x => k))
  (at level 10, x name, m at level 100, k at level 200).
Notation "m ;; k" := (bind m (fun _ => k))
  (at level 100, k at level 200, right associativity).

(** [if err != nil { return wrap(err) }] *)
Definition check (err : option string) (wrap : string -> string) : M unit :=
  match err with
  | None => ret tt
  | Some e => fail (wrap e)
  end.

(** [defer d]: [d] runs when the body returns, whatever the body's result;
    the body's result is the function's result. *)
Definition with_defer {A} (body : M A) (d : list Event) : M A :=
  (fst body ++ d, snd body).

Definition events {A} (m : M A) : list Event := fst m.
Definition result {A} (m : M A) : Res A := snd m.

(* ===================================================================== *)
(** ** The parts of the Go library the code relies on                     *)
(* ===================================================================== *)

Module Go.

Definition is_sep (c : ascii) : bool := Ascii.eqb c "/"%char.

Fixpoint drop_while {A} (p : A -> bool) (l : list A) : list A :=
  match l with
  | [] => []
  | x :: r => if p x then drop_while p r else l
  end.

Fixpoint take_while {A} (p : A -> bool) (l : list A) : list A :=
  match l with
  | [] => []
  | x :: r => if p x then x :: take_while p r else []
  end.

Definition bytes (s : string) : list ascii := list_ascii_of_string s.
Definition str (l : list ascii) : string := string_of_list_ascii l.

(** [s[len(s)-1]]: [None] is the index-out-of-range panic of the empty
    string. *)
Definition last_byte (s : string) : option ascii := last (bytes s).

Fixpoint join (sep : string) (l : list string) : string :=
  match l with
  | [] => ""
  | [x] => x
  | x :: r => x +:+ sep +:+ join sep r
  end.

(** The components of a path between separators. *)
Fixpoint split_sep (l : list ascii) : list string :=
  match l with
  | [] => [""]
  | c :: r =>
      if is_sep c then "" :: split_sep r
      else match split_sep r with
           | [] => [String c ""]
           | w :: ws => String c w :: ws
           end
  end.

(** One component of [filepath.Clean]; [out] holds the kept components,
    the last one first. *)
Definition clean_step (rooted : bool) (out : list string) (comp : string)
  : list string :=
  if String.eqb comp "" then out
  else if String.eqb comp "." then out
  else if String.eqb comp ".." then
    match out with
    | top :: rest =>
        if String.eqb top ".." then ".." :: out else rest
    | [] => if rooted then [] else [".."]
    end
  else comp :: out.

(** [filepath.Clean] on Unix. *)
Definition Clean (path : string) : string :=
  if String.eqb path "" then "."
  else
    let rooted := match path with String c _ => is_sep c | _ => false end in
    let out := fold_left (clean_step rooted) (split_sep (bytes path)) [] in
    let body := join "/" (rev out) in
    let res := (if rooted then "/" else "") +:+ body in
    if String.eqb res "" then "." else res.

(** [filepath.Dir] on Unix: [Clean(path[:i+1])], [i] the last separator. *)
Definition Dir (path : string) : string :=
  Clean (str (rev (drop_while (fun c => negb (is_sep c)) (rev (bytes path))))).

(** [filepath.Base] on Unix. *)
Definition Base (path : string) : string :=
  if String.eqb path "" then "."
  else
    let stripped := rev (drop_while is_sep (rev (bytes path))) in
    let elem := rev (take_while (fun c => negb (is_sep c)) (rev stripped)) in
    match elem with
    | [] => "/"
    | _ => str elem
    end.

(** [syscall.WaitStatus] on Linux, a uint32. *)
Definition WaitStatus := Z.

Definition Exited (w : WaitStatus) : bool := (Z.land w 127 =? 0)%Z.

Definition Signaled (w : WaitStatus) : bool :=
  (negb (Z.land w 127 =? 127) && negb (Z.land w 127 =? 0))%Z.

Definition ExitStatus (w : WaitStatus) : Z :=
  if Exited w then Z.land (Z.shiftr w 8) 255 else (-1)%Z.

End Go.


(* ===================================================================== *)
(** ** Configuration and the Communicator                                 *)
(* ===================================================================== *)

(** The fields of [Config] that the steps and the Communicator read. *)
Record Config := {
  ContainerDir_cfg : string;
  Device : list string;
  CapAdd : list string;
  CapDrop : list string;
  ExecUser : string;
  Image : string;
  Privileged : bool;
  Pty : bool;
  Pull : bool;
  RunCommand : list string;
  TmpFs : list string;
  Volumes : gmap string string;
  FixUploadOwner : bool;
  Systemd : string;
  Login : bool;
  LoginPassword : string;
  LoginServer : string;
  LoginUsername : string
}.

(** [Communicator]; its [lock] is not a field here, it is the [holder]
    component of the state of the scheduler below. *)
Record Communicator := {
  ContainerID : string;
  HostDir : string;
  ContainerDir : string;
  Version : string;
  Config_of : Config;
  ContainerUser : string;
  EntryPoint : list string
}.

(** An [io.Reader]: the bytes it delivers, then EOF or a read error. *)
Record Reader := { r_data : string; r_err : option string }.

(** An [io.Writer]: accepts everything, or fails with [e] once [n] bytes
    have been written ([w_fail = Some (n, e)]). *)
Record Writer := { w_fail : option (nat * string) }.

(** [os.FileInfo], as far as [tar.FileInfoHeader] looks at it. *)
Inductive FileKind := Regular | Directory | Socket.
Record FileInfo := { fi_name : string; fi_size : Z; fi_kind : FileKind }.

(** A tar stream as [tar.Reader] sees it: entries, then a clean end or an
    unreadable header. *)
Inductive TarStream : Type :=
| TarEnd
| TarBad (err : string)
| TarEntry (name : string) (body : string) (body_err : option string)
    (rest : TarStream).

(** What the engine's [cp] process and the operating system answer. *)
Record ProcEnv := {
  pe_stdin_pipe : option string;    (* cmd.StdinPipe() error *)
  pe_stdout_pipe : option string;   (* cmd.StdoutPipe() error *)
  pe_stderr_pipe : option string;   (* cmd.StderrPipe() error *)
  pe_start : option string;         (* cmd.Start() error *)
  pe_stdout : TarStream;            (* what the process writes on stdout *)
  pe_stderr : string;               (* what the process writes on stderr *)
  pe_stderr_read : option string;   (* io.ReadAll(stderrP) error *)
  pe_wait : option string;          (* cmd.Wait() error *)
  pe_chown : option (string * string)  (* CombinedOutput of the chown: error and output *)
}.

(** What can go wrong while the archive is written into the stdin pipe. *)
Record TarEnv := {
  te_header : option string;        (* write error under archive.WriteHeader *)
  te_body : option string;          (* write error under io.Copy(archive, src) *)
  te_close : option string;         (* write error under archive.Close() *)
  te_stdin_close : option string    (* stdin.Close() error *)
}.

(** What the host file system answers to [uploadReader]. *)
Record TempEnv := {
  tmp_create : option string;       (* os.CreateTemp error *)
  tmp_name : string;                (* name of the file created *)
  tmp_write : option string;        (* write error under io.Copy(tempfile, src) *)
  tmp_seek : option string;
  tmp_stat : option string;
  tmp_close : option string;
  tmp_remove : option string
}.

Definition take_bytes (n : nat) (s : string) : string := String.substring 0 n s.

(** TODO Workaround for #5307 in the source: chown of the uploaded path. *)
Definition fixDestinationOwner (c : Communicator) (destination : string)
    (env : ProcEnv) : M unit :=
  if negb (FixUploadOwner (Config_of c)) then ret tt
  else
    let owner := if String.eqb (ContainerUser c) "" then "root"
                 else ContainerUser c in
    let chownArgs :=
      ["podman"; "exec"; "--user"; "root"; ContainerID c; "/bin/sh"; "-c";
       "chown -R " +:+ owner +:+ " " +:+ destination] in
    emit (EvRun chownArgs) ;;
    match pe_chown env with
    | Some (err, output) =>
        fail ("Failed to set owner of the uploaded file: " +:+ err +:+ ", "
              +:+ output)
    | None => ret tt
    end.

(** [tar.FileInfoHeader(fi, "")]: name, size and whether it is a directory. *)
Definition FileInfoHeader (fi : FileInfo) : Res (string * Z * bool) :=
  match fi_kind fi with
  | Regular => Ok (fi_name fi, fi_size fi, false)
  | Directory => Ok (fi_name fi +:+ "/", 0%Z, true)
  | Socket => Err "archive/tar: sockets not supported"
  end.

(** [io.Copy(archive, src)] into an entry announced with [size] bytes. *)
Definition copy_to_archive (size : Z) (src : Reader) (env : TarEnv) : M unit :=
  match te_body env with
  | Some e => fail e
  | None =>
      if (size <? Z.of_nat (String.length (r_data src)))%Z then
        emit (EvTarBody (take_bytes (Z.to_nat size) (r_data src))) ;;
        fail "archive/tar: write too long"
      else
        emit (EvTarBody (r_data src)) ;;
        match r_err src with
        | Some e => fail e
        | None => ret tt
        end
  end.

(** [archive.Close()] after [written] bytes of an entry of [size] bytes. *)
Definition close_archive (size : Z) (written : nat) (env : TarEnv) : M unit :=
  if (Z.of_nat written <? size)%Z then
    fail ("archive/tar: missed writing "
          +:+ pretty (size - Z.of_nat written)%Z +:+ " bytes")
  else
    match te_close env with
    | Some e => fail e
    | None => emit EvTarClose
    end.

Definition wrap_err {A} (m : M A) (wrap : string -> string) : M A :=
  match m with
  | (evs, Err e) => (evs, Err (wrap e))
  | _ => m
  end.

(** uploadFile uses podman cp to copy the file from the host to the
    container. *)
Definition uploadFile (c : Communicator) (dst : string) (src : Reader)
    (fi : FileInfo) (env : ProcEnv) (tenv : TarEnv) : M unit :=
  emit (EvLog ("Copying to " +:+ dst +:+ " on container " +:+ ContainerID c
               +:+ ".")) ;;
  let localCmd := ["podman"; "cp"; "-";
                   ContainerID c +:+ ":" +:+ Go.Dir dst] in
  check (pe_stderr_pipe env) (fun e => "Failed to open pipe: " +:+ e) ;;
  check (pe_stdin_pipe env) (fun e => "Failed to open pipe: " +:+ e) ;;
  emit (EvStart localCmd (bool_decide (pe_start env = None))) ;;
  check (pe_start env) (fun e => e) ;;
  do header <- ([], FileInfoHeader fi) ;
  let '(_, size, isdir) := header in
  check (te_header tenv) (fun e => "Failed to write header: " +:+ e) ;;
  emit (EvTarHeader (Go.Base dst) size isdir) ;;
  wrap_err (copy_to_archive size src tenv)
           (fun e => "Failed to pipe upload: " +:+ e) ;;
  emit (EvLog ("Copied " +:+ pretty (String.length (r_data src))
               +:+ " bytes for " +:+ dst)) ;;
  wrap_err (close_archive size (String.length (r_data src)) tenv)
           (fun e => "Failed to close archive: " +:+ e) ;;
  check (te_stdin_close tenv) (fun e => "Failed to close stdin: " +:+ e) ;;
  emit EvStdinClose ;;
  check (pe_stderr_read env) (fun e => e) ;;
  emit (EvReadStderr (pe_stderr env)) ;;
  emit (EvWait localCmd) ;;
  check (pe_wait env)
        (fun e => "Failed to upload to '" +:+ dst +:+ "' in container: "
                  +:+ pe_stderr env +:+ ". " +:+ e +:+ ".") ;;
  fixDestinationOwner c dst env.

(** uploadReader writes an io.Reader to a temporary file before uploading. *)
Definition uploadReader (c : Communicator) (dst : string) (src : Reader)
    (env : ProcEnv) (tenv : TarEnv) (fenv : TempEnv) : M unit :=
  emit (EvCreateTemp (HostDir c)) ;;
  check (tmp_create fenv)
        (fun e => "Failed to open temp file for writing: " +:+ e) ;;
  with_defer
    (with_defer
       (emit (EvWriteTemp (r_data src)) ;;
        check (match r_err src with Some e => Some e | None => tmp_write fenv end)
              (fun e => "Failed to copy upload file to tempfile: " +:+ e) ;;
        check (tmp_seek fenv) (fun e => "Error seeking tempfile info: " +:+ e) ;;
        check (tmp_stat fenv) (fun e => "Error getting tempfile info: " +:+ e) ;;
        let fi := {| fi_name := tmp_name fenv;
                     fi_size := Z.of_nat (String.length (r_data src));
                     fi_kind := Regular |} in
        uploadFile c dst {| r_data := r_data src; r_err := None |} fi env tenv)
       (EvCloseTemp ::
        match tmp_close fenv with
        | Some e => [EvStderrPrint ("Error closing file: " +:+ e)]
        | None => []
        end))
    (EvRemoveTemp ::
     match tmp_remove fenv with
     | Some e => [EvStderrPrint ("Error removing file: " +:+ e)]
     | None => []
     end).

(** Upload uploads a file to the podman container. *)
Definition Upload (c : Communicator) (dst : string) (src : Reader)
    (fi : option FileInfo) (env : ProcEnv) (tenv : TarEnv) (fenv : TempEnv)
  : M unit :=
  match fi with
  | None => uploadReader c dst src env tenv fenv
  | Some fi => uploadFile c dst src fi env tenv
  end.

Definition UploadDir (c : Communicator) (dst : string) (src : string)
    (exclude : list string) (env : ProcEnv) : M unit :=
  match Go.last_byte src with
  | None => panic "runtime error: index out of range [-1]"
  | Some b =>
      let podmanSource := if Go.is_sep b then src +:+ "." else src in
      let localCmd := ["podman"; "cp"; podmanSource;
                       ContainerID c +:+ ":" +:+ dst] in
      check (pe_stderr_pipe env) (fun e => "Failed to open pipe: " +:+ e) ;;
      emit (EvStart localCmd (bool_decide (pe_start env = None))) ;;
      check (pe_start env) (fun e => "Failed to copy: " +:+ e) ;;
      check (pe_stderr_read env) (fun e => e) ;;
      emit (EvReadStderr (pe_stderr env)) ;;
      emit (EvWait localCmd) ;;
      check (pe_wait env)
            (fun e => "Failed to upload to '" +:+ dst +:+ "' in container: "
                      +:+ pe_stderr env +:+ ". " +:+ e +:+ ".") ;;
      fixDestinationOwner c dst env
  end.

(** [archive.Next()] on a fresh reader: the first entry, or the error. *)
Definition tar_Next (s : TarStream) : Res (string * string * option string) :=
  match s with
  | TarEnd => Err "EOF"
  | TarBad e => Err e
  | TarEntry name body body_err _ => Ok (name, body, body_err)
  end.

(** [io.Copy(dst, archive)]: the body of the current entry goes to [dst]. *)
Definition copy_to_writer (dst : Writer) (body : string)
    (body_err : option string) : M unit :=
  match w_fail dst with
  | Some (n, e) =>
      if (n <? String.length body)%nat then
        emit (EvWriteDst (take_bytes n body)) ;; fail e
      else
        emit (EvWriteDst body) ;;
        check body_err (fun e => e)
  | None =>
      emit (EvWriteDst body) ;;
      check body_err (fun e => e)
  end.

(** Download pulls a file out of a container using `podman cp`. *)
Definition Download (c : Communicator) (src : string) (dst : Writer)
    (env : ProcEnv) : M unit :=
  emit (EvLog ("Downloading file from container: " +:+ ContainerID c +:+ ":"
               +:+ src)) ;;
  let localCmd := ["podman"; "cp"; ContainerID c +:+ ":" +:+ src; "-"] in
  check (pe_stdout_pipe env) (fun e => "Failed to open pipe: " +:+ e) ;;
  check (pe_stderr_pipe env) (fun e => "Failed to open stderr pipe: " +:+ e) ;;
  emit (EvStart localCmd (bool_decide (pe_start env = None))) ;;
  check (pe_start env) (fun e => "Failed to start download: " +:+ e) ;;
  match tar_Next (pe_stdout env) with
  | Ok (_, body, body_err) =>
      wrap_err (copy_to_writer dst body body_err)
               (fun e => "Failed to pipe download: " +:+ e) ;;
      emit (EvLog ("Copied " +:+ pretty (String.length body) +:+ " bytes for "
                   +:+ src)) ;;
      emit (EvWait localCmd) ;;
      check (pe_wait env)
            (fun e => "Failed to download '" +:+ src +:+ "' from container: "
                      +:+ e)
  | Err err =>
      match pe_stderr_read env with
      | None =>
          emit (EvReadStderr (pe_stderr env)) ;;
          if negb (String.eqb (pe_stderr env) "") then
            fail ("Error downloading file: " +:+ pe_stderr env)
          else
            fail ("Failed to read header from tar stream: " +:+ err)
      | Some _ =>
          fail ("Failed to read header from tar stream: " +:+ err)
      end
  | Panic p => panic p
  end.

Definition DownloadDir (c : Communicator) (src dst : string)
    (exclude : list string) : M unit :=
  fail "DownloadDir is not implemented for podman".

(* ===================================================================== *)
(** ** Remote commands: Start and run                                     *)
(* ===================================================================== *)

(** [packersdk.RemoteCmd]: the command, its optional input and its optional
    output sinks ([None] is a nil stream). *)
Record RemoteCmd := {
  Command : string;
  Stdin : option Reader;
  Stdout : option Writer;
  Stderr : option Writer
}.

(** What [exitErr.Sys()] holds: a [syscall.WaitStatus], or a value of
    another type on a platform without it. *)
Inductive SysValue :=
| SysWaitStatus (w : Go.WaitStatus)
| SysOther.

(** The error value returned by [cmd.Wait()]. *)
Inductive WaitError :=
| WaitNil
| WaitExitError (sys : SysValue)
| WaitOtherError (msg : string).

Record ExecEnv := {
  ee_stdin_pipe : option string;
  ee_stderr_pipe : option string;
  ee_stdout_pipe : option string;
  ee_start : option string;         (* cmd.Start() error *)
  ee_wait : WaitError               (* what cmd.Wait() returns *)
}.

(** The arguments of the exec invocation built by [Start]. *)
Definition podmanArgs (c : Communicator) (remote : RemoteCmd) : list string :=
  let args0 := ["exec"; "-i"; ContainerID c] ++ EntryPoint c
               ++ ["(" +:+ Command remote +:+ ")"] in
  let args1 := if Pty (Config_of c)
               then take 2 args0 ++ ["-t"] ++ drop 2 args0 else args0 in
  if negb (String.eqb (ExecUser (Config_of c)) "")
  then take 2 args1 ++ ["-u"; ExecUser (Config_of c)] ++ drop 2 args1
  else args1.

(** The exit status [run] derives from the result of [cmd.Wait()]. *)
Definition exitStatus_of (err : WaitError) : Z :=
  match err with
  | WaitExitError sys =>
      match sys with
      | SysWaitStatus status => Go.ExitStatus status
      | SysOther => 1%Z
      end
  | _ => 0%Z
  end.

Definition when (b : bool) (m : M unit) : M unit := if b then m else ret tt.

Definition wg_count (remote : RemoteCmd) : nat :=
  (match Stdout remote with Some _ => 1 | None => 0 end)
  + (match Stderr remote with Some _ => 1 | None => 0 end).

(** Runs the given command and blocks until completion. *)
Definition run (c : Communicator) (cmd : list string) (remote : RemoteCmd)
    (env : ExecEnv) : M unit :=
  with_defer
    (emit EvLock ;;
     when (bool_decide (is_Some (Stdout remote))) (emit (EvGoCopy StdoutPipe)) ;;
     when (bool_decide (is_Some (Stderr remote))) (emit (EvGoCopy StderrPipe)) ;;
     emit (EvLog ("Executing " +:+ Go.join " " cmd +:+ ":")) ;;
     emit (EvStart cmd (bool_decide (ee_start env = None))) ;;
     match ee_start env with
     | Some err =>
         emit (EvLog ("Error executing: " +:+ err)) ;;
         emit (EvSetExited 254)
     | None =>
         when (bool_decide (is_Some (Stdin remote))) (emit EvGoStdin) ;;
         emit (EvWgWait (wg_count remote)) ;;
         emit (EvWait cmd) ;;
         emit (EvSetExited (exitStatus_of (ee_wait env)))
     end)
    [EvUnlock].

(** [Start]: what it returns to its caller, and the goroutine it launches
    ([None] when it returns before [go c.run(...)]). *)
Definition Start (c : Communicator) (remote : RemoteCmd) (env : ExecEnv)
  : M unit * option (M unit) :=
  let cmd := "podman" :: podmanArgs c remote in
  match ee_stdin_pipe env with
  | Some err => (fail err, None)
  | None =>
      match ee_stderr_pipe env with
      | Some err => (fail err, None)
      | None =>
          match ee_stdout_pipe env with
          | Some err => (fail err, None)
          | None => (ret tt, Some (run c cmd remote env))
          end
      end
  end.

(** The statuses a task published with [SetExited], in order. *)
Definition published (evs : list Event) : list Z :=
  omap (fun e => match e with EvSetExited s => Some s | _ => None end) evs.

(** How a process ends, and the model of [os/exec] on top of it: [Wait]
    returns nil when the process exited with code 0 and an [*ExitError]
    carrying the process state otherwise. *)
Inductive ProcExit :=
| ProcExited (code : Z)
| ProcSignaled (sig : Z) (core : bool).

Definition wf_exit (p : ProcExit) : Prop :=
  match p with
  | ProcExited code => (0 <= code <= 255)%Z
  | ProcSignaled sig _ => (1 <= sig <= 126)%Z
  end.

Definition wait_status (p : ProcExit) : Go.WaitStatus :=
  match p with
  | ProcExited code => Z.shiftl code 8
  | ProcSignaled sig core => Z.lor sig (if core then 128 else 0)
  end.

Definition Success (p : ProcExit) : bool :=
  match p with
  | ProcExited code => (code =? 0)%Z
  | ProcSignaled _ _ => false
  end.

Definition cmd_Wait (facility : bool) (p : ProcExit) : WaitError :=
  if Success p then WaitNil
  else WaitExitError (if facility then SysWaitStatus (wait_status p)
                      else SysOther).

(* ===================================================================== *)
(** ** Goroutines sharing the Communicator's lock                         *)
(* ===================================================================== *)

(** A task is a goroutine executing one operation of the Communicator: the
    events it has performed and those still to come. *)
Record Task := { done : list Event; todo : list Event }.

(** The Communicator's mutex and the tasks using it. *)
Record Sys := { holder : option nat; tasks : list Task }.

Definition spawn (m : M unit) : Task := {| done := []; todo := events m |}.

Definition init (ops : list (M unit)) : Sys :=
  {| holder := None; tasks := spawn <$> ops |}.

(** Task [i] performs its next event.  [Lock] is enabled only while the
    mutex is free; every other event is always enabled. *)
Definition step (i : nat) (s : Sys) : option Sys :=
  match tasks s !! i with
  | Some {| done := d; todo := e :: rest |} =>
      let t' := {| done := d ++ [e]; todo := rest |} in
      match e with
      | EvLock =>
          match holder s with
          | None => Some {| holder := Some i; tasks := <[i := t']> (tasks s) |}
          | Some _ => None
          end
      | EvUnlock =>
          match holder s with
          | Some _ => Some {| holder := None; tasks := <[i := t']> (tasks s) |}
          | None => None
          end
      | _ => Some {| holder := holder s; tasks := <[i := t']> (tasks s) |}
      end
  | _ => None
  end.

(** A schedule names the task that moves at each instant; a task that cannot
    move (finished, or blocked on the lock) leaves the state as it is. *)
Definition exec (sched : list nat) (s : Sys) : Sys :=
  fold_left (fun s i => default s (step i s)) sched s.

Definition is_lockop (e : Event) : bool :=
  match e with EvLock | EvUnlock => true | _ => false end.

Definition lockfree (l : list Event) : bool := forallb (fun e => negb (is_lockop e)) l.

Definition is_spawn (e : Event) : bool :=
  match e with EvStart _ true => true | _ => false end.
Definition is_wait (e : Event) : bool :=
  match e with EvWait _ => true | _ => false end.
Definition is_unlock (e : Event) : bool :=
  match e with EvUnlock => true | _ => false end.

(** The process of the task has been spawned, and its wait has not yet
    returned or (for a task that takes the lock) the lock is not yet
    released. *)
Definition cmd_in_flight (t : Task) : bool :=
  existsb is_spawn (done t)
  && negb (existsb is_wait (done t) && existsb is_unlock (done t)).

(** The same for an operation that never takes the lock: spawned and not
    yet waited for. *)
Definition transfer_in_flight (t : Task) : bool :=
  existsb is_spawn (done t) && negb (existsb is_wait (done t)).

(** The task has taken its first step and has not finished. *)
Definition running (t : Task) : bool :=
  negb (bool_decide (done t = [])) && negb (bool_decide (todo t = [])).

(* ===================================================================== *)
(** ** The state bag, the driver and the steps                            *)
(* ===================================================================== *)

(** ContainerConfig is the configuration used to start a container. *)
Record ContainerConfig := {
  cc_Image : string;
  cc_RunCommand : list string;
  cc_Device : list string;
  cc_CapAdd : list string;
  cc_CapDrop : list string;
  cc_Volumes : gmap string string;
  cc_TmpFs : list string;
  cc_Privileged : bool;
  cc_Systemd : string
}.

(** The calls of the [Driver] interface that the steps make. *)
Inductive DriverCall :=
| CallLogin (repo username password : string)
| CallLogout (repo : string)
| CallPull (image : string)
| CallStartContainer (cfg : ContainerConfig)
| CallKillContainer (id : string).

(** An implementation of [Driver]: the answer to each call may depend on the
    calls made before ([history], oldest first). *)
Record Driver := {
  drv_Login : list DriverCall -> string -> string -> string -> option string;
  drv_Logout : list DriverCall -> string -> option string;
  drv_Pull : list DriverCall -> string -> option string;
  drv_StartContainer : list DriverCall -> ContainerConfig -> string * option string;
  drv_KillContainer : list DriverCall -> string -> option string
}.

Inductive UiEvent :=
| UiSay (msg : string)
| UiMessage (msg : string)
| UiError (msg : string).

(** The values stored in the [multistep.StateBag]. *)
Inductive Value :=
| VUi
| VConfig (config : Config)
| VDriver (driver : Driver)
| VString (s : string)
| VError (err : string).

(** The state the steps act on: the bag, the calls received by the driver,
    what was sent to the UI and to the log. *)
Record World := {
  bag : gmap string Value;
  calls : list DriverCall;
  ui_out : list UiEvent;
  log_out : list string
}.

Inductive StepAction := ActionContinue | ActionHalt.

(** A step method returns, or panics on a failed type assertion. *)
Inductive Outcome (A : Type) :=
| Returned (a : A) (w : World)
| Panicked (msg : string) (w : World).
Arguments Returned {A} a w.
Arguments Panicked {A} msg w.

Definition world_of {A} (o : Outcome A) : World :=
  match o with Returned _ w => w | Panicked _ w => w end.

Definition Put (key : string) (v : Value) (w : World) : World :=
  {| bag := <[key := v]> (bag w); calls := calls w;
     ui_out := ui_out w; log_out := log_out w |}.

Definition ui (e : UiEvent) (w : World) : World :=
  {| bag := bag w; calls := calls w;
     ui_out := ui_out w ++ [e]; log_out := log_out w |}.

Definition log (msg : string) (w : World) : World :=
  {| bag := bag w; calls := calls w;
     ui_out := ui_out w; log_out := log_out w ++ [msg] |}.

Definition called (call : DriverCall) (w : World) : World :=
  {| bag := bag w; calls := calls w ++ [call];
     ui_out := ui_out w; log_out := log_out w |}.

(** [state.Put("error", err); ui.Error(err.Error()); return ActionHalt] *)
Definition halt (err : string) (w : World) : Outcome StepAction :=
  Returned ActionHalt (ui (UiError err) (Put "error" (VError err) w)).

Module StepPull.

(** The deferred function registered after a successful login. *)
Definition logout (driver : Driver) (config : Config) (w : World) : World :=
  let w := ui (UiMessage "Logging out...") w in
  let err := drv_Logout driver (calls w) (LoginServer config) in
  let w := called (CallLogout (LoginServer config)) w in
  match err with
  | Some err => ui (UiError ("Error logging out: " +:+ err)) w
  | None => w
  end.

(** The end of [Run], from [driver.Pull] on. *)
Definition pull (driver : Driver) (config : Config) (w : World)
  : Outcome StepAction :=
  let err := drv_Pull driver (calls w) (Image config) in
  let w := called (CallPull (Image config)) w in
  match err with
  | Some err => halt ("Error pulling Podman image: " +:+ err) w
  | None => Returned ActionContinue w
  end.

Definition deferred {A} (d : World -> World) (o : Outcome A) : Outcome A :=
  match o with
  | Returned a w => Returned a (d w)
  | Panicked msg w => Panicked msg (d w)
  end.

Definition Run (w : World) : Outcome StepAction :=
  match bag w !! "ui" with
  | Some VUi =>
      match bag w !! "config" with
      | Some (VConfig config) =>
          if negb (Pull config) then
            Returned ActionContinue (log "Pull disabled, won't podman pull" w)
          else
            let w := ui (UiSay ("Pulling Podman image: " +:+ Image config)) w in
            match bag w !! "driver" with
            | Some (VDriver driver) =>
                if Login config then
                  let w := ui (UiMessage "Logging in...") w in
                  let err := drv_Login driver (calls w) (LoginServer config)
                               (LoginUsername config) (LoginPassword config) in
                  let w := called (CallLogin (LoginServer config)
                                     (LoginUsername config)
                                     (LoginPassword config)) w in
                  match err with
                  | Some err => halt ("Error logging in: " +:+ err) w
                  | None => deferred (logout driver config) (pull driver config w)
                  end
                else pull driver config w
            | _ => Panicked "interface conversion: not a Driver" w
            end
      | _ => halt "error encountered obtaining podman config" w
      end
  | _ => Panicked "interface conversion: not a packersdk.Ui" w
  end.

Definition Cleanup (w : World) : World := w.

End StepPull.

Module StepRun.

(** [type StepRun struct { containerId string }] *)
Record t := { containerId : string }.

Definition Run (s : t) (w : World) : Outcome (StepAction * t) :=
  match bag w !! "ui" with
  | Some VUi =>
      match bag w !! "config" with
      | Some (VConfig config) =>
          match bag w !! "temp_dir" with
          | Some (VString tempDir) =>
              let runConfig :=
                {| cc_Image := Image config;
                   cc_RunCommand := RunCommand config;
                   cc_Device := Device config;
                   cc_TmpFs := TmpFs config;
                   cc_Volumes := <[tempDir := ContainerDir_cfg config]>
                                   (Volumes config);
                   cc_CapAdd := CapAdd config;
                   cc_CapDrop := CapDrop config;
                   cc_Privileged := Privileged config;
                   cc_Systemd := Systemd config |} in
              match bag w !! "driver" with
              | Some (VDriver driver) =>
                  let w := ui (UiSay "Starting podman container...") w in
                  let '(id, err) := drv_StartContainer driver (calls w) runConfig in
                  let w := called (CallStartContainer runConfig) w in
                  match err with
                  | Some err =>
                      match halt ("Error running container: " +:+ err) w with
                      | Returned a w => Returned (a, s) w
                      | Panicked msg w => Panicked msg w
                      end
                  | None =>
                      let s := {| containerId := id |} in
                      let w := Put "container_id" (VString (containerId s)) w in
                      let w := Put "instance_id" (VString (containerId s)) w in
                      let w := ui (UiMessage ("Container ID: " +:+ containerId s)) w in
                      Returned (ActionContinue, s) w
                  end
              | _ => Panicked "interface conversion: not a Driver" w
              end
          | _ => Panicked "interface conversion: not a string" w
          end
      | _ =>
          match halt "error encountered obtaining podman config" w with
          | Returned a w => Returned (a, s) w
          | Panicked msg w => Panicked msg w
          end
      end
  | _ => Panicked "interface conversion: not a packersdk.Ui" w
  end.

Definition Cleanup (s : t) (w : World) : Outcome t :=
  if String.eqb (containerId s) "" then Returned s w
  else
    match bag w !! "driver" with
    | Some (VDriver driver) =>
        match bag w !! "ui" with
        | Some VUi =>
            let w := ui (UiSay ("Killing the container: " +:+ containerId s)) w in
            let _ignored := drv_KillContainer driver (calls w) (containerId s) in
            let w := called (CallKillContainer (containerId s)) w in
            Returned {| containerId := "" |} w
        | _ => Panicked "interface conversion: not a packersdk.Ui" w
        end
    | _ => Panicked "interface conversion: not a Driver" w
    end.

End StepRun.

(** The [KillContainer] calls in a call log. *)
Definition kills (l : list DriverCall) : list string :=
  omap (fun c => match c with CallKillContainer id => Some id | _ => None end) l.

Definition logouts (l : list DriverCall) : list string :=
  omap (fun c => match c with CallLogout repo => Some repo | _ => None end) l.

(* ===================================================================== *)
(** ** Observations on event lists and the lock discipline             *)
(* ===================================================================== *)

(** The goroutines launched by a sequence of [Start] calls on one
    Communicator; a call whose pipes cannot be set up launches none. *)
Definition submit (c : Communicator) (cmds : list (RemoteCmd * ExecEnv))
  : list (M unit) :=
  omap (fun p => snd (Start c (fst p) (snd p))) cmds.

(** The command lines on which [Start] was called. *)
Definition started (evs : list Event) : list (list string) :=
  omap (fun e => match e with EvStart argv _ => Some argv | _ => None end) evs.

(** The bytes written to the destination writer of a download. *)
Definition written (evs : list Event) : list string :=
  omap (fun e => match e with EvWriteDst b => Some b | _ => None end) evs.

(** The entries announced in the archive of an upload. *)
Definition headers (evs : list Event) : list (string * Z * bool) :=
  omap (fun e => match e with
                 | EvTarHeader name size isdir => Some (name, size, isdir)
                 | _ => None
                 end) evs.

(** What was written through the tar writer of an upload. *)
Definition archive (evs : list Event) : list Event :=
  List.filter (fun e => match e with
                        | EvTarHeader _ _ _ | EvTarBody _ | EvTarClose => true
                        | _ => false
                        end) evs.

Definition writer_accepts (dst : Writer) (body : string) : Prop :=
  match w_fail dst with
  | Some (n, _) => String.length body <= n
  | None => True
  end.

(** The shapes of what a task still has to do: it has not yet asked for the
    lock, it is between [Lock] and [Unlock], or it never touches the lock
    (again). *)
Definition waiting (l : list Event) : Prop :=
  exists body, l = EvLock :: body ++ [EvUnlock] /\ lockfree body = true.

Definition critical (l : list Event) : Prop :=
  exists body, l = body ++ [EvUnlock] /\ lockfree body = true.

Definition shaped (l : list Event) : Prop :=
  waiting l \/ critical l \/ lockfree l = true.

Definition script_of (t : Task) : list Event := done t ++ todo t.

(** The invariant: every task has one of the three shapes, and a task inside
    its critical section is the holder of the lock. *)
Definition Inv (s : Sys) : Prop :=
  (forall i t, tasks s !! i = Some t -> shaped (todo t)) /\
  (forall i t, tasks s !! i = Some t -> critical (todo t) -> holder s = Some i).

(* ===================================================================== *)
(** ** Concrete data                                                      *)
(* ===================================================================== *)

Definition demo_config : Config :=
  {| ContainerDir_cfg := "/packer-files"; Device := []; CapAdd := [];
     CapDrop := []; ExecUser := ""; Image := "alpine"; Privileged := false;
     Pty := false; Pull := true;
     RunCommand := ["-d"; "-i"; "-t"; "--entrypoint=/bin/sh"; "--"; "{{.Image}}"];
     TmpFs := []; Volumes := ∅; FixUploadOwner := true; Systemd := "true";
     Login := true; LoginPassword := "secret"; LoginServer := "registry.test";
     LoginUsername := "builder" |}.

Definition demo_comm : Communicator :=
  {| ContainerID := "c1"; HostDir := "/tmp/packer"; ContainerDir := "/packer-files";
     Version := "4.9.0"; Config_of := demo_config; ContainerUser := "";
     EntryPoint := ["/bin/sh"; "-c"] |}.

Definition demo_remote (command : string) : RemoteCmd :=
  {| Command := command; Stdin := None; Stdout := None; Stderr := None |}.

Definition demo_exec_env (start : option string) (w : WaitError) : ExecEnv :=
  {| ee_stdin_pipe := None; ee_stderr_pipe := None; ee_stdout_pipe := None;
     ee_start := start; ee_wait := w |}.

Definition demo_proc_env (out : TarStream) (err : string) : ProcEnv :=
  {| pe_stdin_pipe := None; pe_stdout_pipe := None; pe_stderr_pipe := None;
     pe_start := None; pe_stdout := out; pe_stderr := err;
     pe_stderr_read := None; pe_wait := None; pe_chown := None |}.

Definition demo_tar_env : TarEnv :=
  {| te_header := None; te_body := None; te_close := None;
     te_stdin_close := None |}.

Definition demo_temp_env : TempEnv :=
  {| tmp_create := None; tmp_name := "/tmp/packer/upload1";
     tmp_write := None; tmp_seek := None; tmp_stat := None;
     tmp_close := None; tmp_remove := None |}.

Definition demo_cmds : list (RemoteCmd * ExecEnv) :=
  [(demo_remote "make", demo_exec_env None WaitNil);
   (demo_remote "make install", demo_exec_env None WaitNil)].

(** Task 0 takes the lock, task 1 asks for it in vain, task 0 goes on to
    spawn its process. *)
Definition demo_sched : list nat := [0; 1; 0; 0].

(** A remote command and a download on the same Communicator. *)
Definition demo_mixed : list (M unit) :=
  submit demo_comm [(demo_remote "make", demo_exec_env None WaitNil)]
  ++ [Download demo_comm "/etc/hostname" {| w_fail := None |}
        (demo_proc_env (TarEntry "hostname" "c1" None TarEnd) "")].

(** The operations that move files. *)
Inductive transfer_op (c : Communicator) : M unit -> Prop :=
| transfer_Upload dst src fi env tenv fenv :
    transfer_op c (Upload c dst src fi env tenv fenv)
| transfer_UploadDir dst src exclude env :
    transfer_op c (UploadDir c dst src exclude env)
| transfer_Download src dst env :
    transfer_op c (Download c src dst env).

Definition demo_driver (login pull : option string) : Driver :=
  {| drv_Login := fun _ _ _ _ => login;
     drv_Logout := fun _ _ => None;
     drv_Pull := fun _ _ => pull;
     drv_StartContainer := fun _ _ => ("c1", None);
     drv_KillContainer := fun _ _ => Some "no such container" |}.

Definition demo_world (driver : Driver) : World :=
  {| bag := <["ui" := VUi]> (<["config" := VConfig demo_config]>
              (<["driver" := VDriver driver]>
                 (<["temp_dir" := VString "/tmp/packer"]> ∅)));
     calls := []; ui_out := []; log_out := [] |}.

(* ===================================================================== *)
(** ** The Connect step and the preparation of the configuration         *)
(* ===================================================================== *)

(** What [exec.Command("podman", "inspect", ...).Output()] returns: the
    standard output, an [*exec.ExitError] with the captured stderr, or an
    error of another type. *)
Inductive InspectResult :=
| InspectOk (stdout : string)
| InspectExitError (err : string) (stderr : string)
| InspectError (err : string).

(** [getContainerUser]; the command run with [Output()] is recorded as an
    [EvRun].  [TrimSpace] is [strings.TrimSpace]; [Errorf] is [fmt.Errorf]
    applied to its format alone (the source passes the message as the
    format). *)
Definition getContainerUser (TrimSpace Errorf : string -> string)
    (containerId : string) (res : InspectResult) : M string :=
  let inspectArgs :=
    ["podman"; "inspect"; "--format"; "{{.Config.User}}"; containerId] in
  emit (EvRun inspectArgs) ;;
  match res with
  | InspectOk stdout => ret (TrimSpace stdout)
  | InspectExitError err stderr =>
      let errStr := "Failed to inspect the container: " +:+ err in
      let errStr := errStr +:+ ", " +:+ stderr in
      fail (Errorf errStr)
  | InspectError err =>
      let errStr := "Failed to inspect the container: " +:+ err in
      fail (Errorf errStr)
  end.

(** The bag as the Connect step uses it: the values above, and the
    Communicator it stores. *)
Inductive ConnValue :=
| CVal (v : Value)
| CCommunicator (c : Communicator).

(** What the Connect step is answered: by [driver.Version()] (version and
    error) and by the inspect command. *)
Record ConnectEnv := {
  ce_version : string * option string;
  ce_inspect : InspectResult
}.

Inductive ConnOutcome :=
| ConnReturned (a : StepAction) (b : gmap string ConnValue) (evs : list Event)
| ConnPanicked (msg : string).

Module StepConnectPodman.

Definition Run (TrimSpace Errorf : string -> string) (env : ConnectEnv)
    (state : gmap string ConnValue) : ConnOutcome :=
  match state !! "config" with
  | Some (CVal (VConfig config)) =>
      match state !! "container_id" with
      | Some (CVal (VString containerId)) =>
          match state !! "driver" with
          | Some (CVal (VDriver driver)) =>
              match state !! "temp_dir" with
              | Some (CVal (VString tempDir)) =>
                  match ce_version env with
                  | (_, Some err) =>
                      ConnReturned ActionHalt
                        (<["error" := CVal (VError err)]> state) []
                  | (version, None) =>
                      match getContainerUser TrimSpace Errorf containerId
                              (ce_inspect env) with
                      | (evs, Ok containerUser) =>
                          let comm :=
                            {| ContainerID := containerId;
                               HostDir := tempDir;
                               ContainerDir := ContainerDir_cfg config;
                               Version := version;
                               Config_of := config;
                               ContainerUser := containerUser;
                               EntryPoint := ["/bin/sh"; "-c"] |} in
                          ConnReturned ActionContinue
                            (<["communicator" := CCommunicator comm]> state) evs
                      | (evs, Err err) =>
                          ConnReturned ActionHalt
                            (<["error" := CVal (VError err)]> state) evs
                      | (_, Panic msg) => ConnPanicked msg
                      end
                  end
              | _ => ConnPanicked "interface conversion: not a string"
              end
          | _ => ConnPanicked "interface conversion: not a Driver"
          end
      | _ => ConnPanicked "interface conversion: not a string"
      end
  | _ =>
      ConnReturned ActionHalt
        (<["error" := CVal (VError "error encountered obtaining podman config")]>
           state) []
  end.

Definition Cleanup (state : gmap string ConnValue) : gmap string ConnValue :=
  state.

End StepConnectPodman.

(** The builder's [Config]: the fields above and those that only
    [Prepare] reads. *)
Record BuilderConfig := {
  bc_config : Config;
  bc_CommType : string;             (* c.Comm.Type *)
  bc_Commit : bool;
  bc_Discard : bool;
  bc_ExportPath : string
}.

Definition errArtifactNotUsed : string :=
  "No instructions given for handling the artifact; expected commit, discard, or export_path".
Definition errArtifactUseConflict : string :=
  "Cannot specify more than one of commit, discard, and export_path".
Definition errExportPathNotFile : string :=
  "export_path must be a file, not a directory".
Definition errImageNotSpecified : string := "Image must be specified".

(** What [Prepare] is answered: by [config.Decode] (the decoded
    configuration and the keys that were set, or an error), by
    [c.Comm.Prepare] (its errors) and by [os.Stat] on the export path
    ([Some d] when the path exists, [d] telling whether it is a directory). *)
Record PrepareEnv := {
  prep_decode : BuilderConfig -> (BuilderConfig * list string) + string;
  prep_comm : BuilderConfig -> list string;
  prep_stat : string -> option bool
}.

Definition set_config (f : Config -> Config) (c : BuilderConfig) : BuilderConfig :=
  {| bc_config := f (bc_config c); bc_CommType := bc_CommType c;
     bc_Commit := bc_Commit c; bc_Discard := bc_Discard c;
     bc_ExportPath := bc_ExportPath c |}.

Definition set_CommType (ty : string) (c : BuilderConfig) : BuilderConfig :=
  {| bc_config := bc_config c; bc_CommType := ty;
     bc_Commit := bc_Commit c; bc_Discard := bc_Discard c;
     bc_ExportPath := bc_ExportPath c |}.

Definition with_upload_defaults (c : Config) : Config :=
  {| ContainerDir_cfg := ContainerDir_cfg c; Device := Device c;
     CapAdd := CapAdd c; CapDrop := CapDrop c; ExecUser := ExecUser c;
     Image := Image c; Privileged := Privileged c; Pty := Pty c;
     Pull := Pull c; RunCommand := RunCommand c; TmpFs := TmpFs c;
     Volumes := Volumes c; FixUploadOwner := true; Systemd := "true";
     Login := Login c; LoginPassword := LoginPassword c;
     LoginServer := LoginServer c; LoginUsername := LoginUsername c |}.

Definition with_RunCommand (rc : list string) (c : Config) : Config :=
  {| ContainerDir_cfg := ContainerDir_cfg c; Device := Device c;
     CapAdd := CapAdd c; CapDrop := CapDrop c; ExecUser := ExecUser c;
     Image := Image c; Privileged := Privileged c; Pty := Pty c;
     Pull := Pull c; RunCommand := rc; TmpFs := TmpFs c;
     Volumes := Volumes c; FixUploadOwner := FixUploadOwner c;
     Systemd := Systemd c;
     Login := Login c; LoginPassword := LoginPassword c;
     LoginServer := LoginServer c; LoginUsername := LoginUsername c |}.

Definition with_Pull (p : bool) (c : Config) : Config :=
  {| ContainerDir_cfg := ContainerDir_cfg c; Device := Device c;
     CapAdd := CapAdd c; CapDrop := CapDrop c; ExecUser := ExecUser c;
     Image := Image c; Privileged := Privileged c; Pty := Pty c;
     Pull := p; RunCommand := RunCommand c; TmpFs := TmpFs c;
     Volumes := Volumes c; FixUploadOwner := FixUploadOwner c;
     Systemd := Systemd c;
     Login := Login c; LoginPassword := LoginPassword c;
     LoginServer := LoginServer c; LoginUsername := LoginUsername c |}.

Definition with_ContainerDir (d : string) (c : Config) : Config :=
  {| ContainerDir_cfg := d; Device := Device c;
     CapAdd := CapAdd c; CapDrop := CapDrop c; ExecUser := ExecUser c;
     Image := Image c; Privileged := Privileged c; Pty := Pty c;
     Pull := Pull c; RunCommand := RunCommand c; TmpFs := TmpFs c;
     Volumes := Volumes c; FixUploadOwner := FixUploadOwner c;
     Systemd := Systemd c;
     Login := Login c; LoginPassword := LoginPassword c;
     LoginServer := LoginServer c; LoginUsername := LoginUsername c |}.

Definition nonempty (s : string) : bool := negb (String.eqb s "").

(** The errors collected by [Prepare] after the defaults, in order. *)
Definition prepare_errors (env : PrepareEnv) (c : BuilderConfig) : list string :=
  prep_comm env c
  ++ (if String.eqb (Image (bc_config c)) "" then [errImageNotSpecified] else [])
  ++ (if (nonempty (bc_ExportPath c) && bc_Commit c)
         || (nonempty (bc_ExportPath c) && bc_Discard c)
         || (bc_Commit c && bc_Discard c)
      then [errArtifactUseConflict] else [])
  ++ (if String.eqb (bc_ExportPath c) "" && negb (bc_Commit c)
         && negb (bc_Discard c)
      then [errArtifactNotUsed] else [])
  ++ (if nonempty (bc_ExportPath c)
      then match prep_stat env (bc_ExportPath c) with
           | Some true => [errExportPathNotFile]
           | _ => []
           end
      else []).

(** How [Prepare] ends: the decode error, the collected errors, or nil. *)
Inductive PrepareResult :=
| PrepareDecodeError (err : string)
| PrepareErrors (errs : list string)
| PrepareOk.

(** [Config.Prepare]: the configuration as it leaves it, and its result. *)
Definition Prepare (env : PrepareEnv) (c : BuilderConfig)
  : BuilderConfig * PrepareResult :=
  let c := set_config with_upload_defaults c in
  match prep_decode env c with
  | inr err => (c, PrepareDecodeError err)
  | inl (c, keys) =>
      let c := match RunCommand (bc_config c) with
               | [] => set_config
                         (with_RunCommand
                            ["-d"; "-i"; "-t"; "--entrypoint=/bin/sh"; "--";
                             "{{.Image}}"]) c
               | _ => c
               end in
      let hasPull := existsb (fun k => String.eqb k "pull") keys in
      let c := if negb hasPull then set_config (with_Pull true) c else c in
      let c := if String.eqb (bc_CommType c) "" then set_CommType "docker" c
               else c in
      let errs := prepare_errors env c in
      let c := if String.eqb (ContainerDir_cfg (bc_config c)) ""
               then set_config (with_ContainerDir "/packer-files") c else c in
      match errs with
      | [] => (c, PrepareOk)
      | _ => (c, PrepareErrors errs)
      end
  end.

(** Exactly one of the three ways to handle the artifact is chosen. *)
Definition one_artifact_use (c : BuilderConfig) : bool :=
  match nonempty (bc_ExportPath c), bc_Commit c, bc_Discard c with
  | true, false, false | false, true, false | false, false, true => true
  | _, _, _ => false
  end.

(* ===================================================================== *)
(** ** Further observations                                               *)
(* ===================================================================== *)

(** The command lines run to completion with [Output] or [CombinedOutput]. *)
Definition runs (evs : list Event) : list (list string) :=
  omap (fun e => match e with EvRun argv => Some argv | _ => None end) evs.



(** No event of the list satisfies [P]. *)
Definition evfree (P : Event -> bool) (l : list Event) : bool :=
  forallb (fun e => negb (P e)) l.

Definition is_temp_cleanup (e : Event) : bool :=
  match e with EvCloseTemp | EvRemoveTemp => true | _ => false end.


(** The two operations that end with [fixDestinationOwner]. *)
Inductive upload_op (c : Communicator) (dst : string) (env : ProcEnv)
  : M unit -> Prop :=
| upload_file src fi tenv fenv :
    upload_op c dst env (Upload c dst src fi env tenv fenv)
| upload_dir src exclude :
    upload_op c dst env (UploadDir c dst src exclude env).

(** The chown command of [fixDestinationOwner]. *)
Definition chown_argv (c : Communicator) (destination : string) : list string :=
  ["podman"; "exec"; "--user"; "root"; ContainerID c; "/bin/sh"; "-c";
   "chown -R "
   +:+ (if nonempty (ContainerUser c) then ContainerUser c else "root")
   +:+ " " +:+ destination].

(** Every task has finished. *)
Definition all_done (s : Sys) : bool :=
  forallb (fun t => bool_decide (todo t = [])) (tasks s).

(** The operations of the Communicator: the goroutine of a remote command,
    or a transfer. *)
Definition command_op (c : Communicator) (m : M unit) : Prop :=
  exists cmd remote env, m = run c cmd remote env.

Definition comm_op (c : Communicator) (m : M unit) : Prop :=
  command_op c m \/ transfer_op c m.

(** The invariant needed for progress: the holder of the lock, if any, is a
    task inside its critical section. *)
Definition Inv_holder (s : Sys) : Prop :=
  forall i, holder s = Some i ->
            exists t, tasks s !! i = Some t /\ critical (todo t).

(** The work left in a state. *)
Definition remaining (s : Sys) : nat :=
  sum_list (map (fun t => length (todo t)) (tasks s)).

(** [strings.TrimSpace] on ASCII text. *)
Definition is_space (a : ascii) : bool :=
  match a with
  | " "%char | "009"%char | "010"%char | "011"%char | "012"%char
  | "013"%char => true
  | _ => false
  end.

Definition trim_ascii (s : string) : string :=
  Go.str (rev (Go.drop_while is_space
                 (rev (Go.drop_while is_space (Go.bytes s))))).

Definition demo_builder_config : BuilderConfig :=
  {| bc_config := demo_config; bc_CommType := ""; bc_Commit := true;
     bc_Discard := false; bc_ExportPath := "" |}.

Definition demo_prepare_env : PrepareEnv :=
  {| prep_decode := fun c => inl (c, ["image"; "commit"]);
     prep_comm := fun _ => [];
     prep_stat := fun _ => None |}.

Definition demo_conn_bag : gmap string ConnValue :=
  <["config" := CVal (VConfig demo_config)]>
    (<["container_id" := CVal (VString "c1")]>
       (<["driver" := CVal (VDriver (demo_driver None None))]>
          (<["temp_dir" := CVal (VString "/tmp/packer")]> ∅))).

Definition demo_bag (config : Config) (driver : option Driver)
  : gmap string Value :=
  <["ui" := VUi]>
    (<["config" := VConfig config]>
       (match driver with
        | Some d => <["driver" := VDriver d]>
                      (<["temp_dir" := VString "/tmp/packer"]> ∅)
        | None => ∅
        end)).

Definition demo_world_with (config : Config) (driver : option Driver) : World :=
  {| bag := demo_bag config driver; calls := []; ui_out := []; log_out := [] |}.

Definition demo_config_no_login : Config :=
  {| ContainerDir_cfg := "/packer-files"; Device := []; CapAdd := [];
     CapDrop := []; ExecUser := ""; Image := "alpine"; Privileged := false;
     Pty := false; Pull := true; RunCommand := []; TmpFs := [];
     Volumes := <["/tmp/packer" := "/old"]> (<["/data" := "/mnt/data"]> ∅);
     FixUploadOwner := true; Systemd := "true"; Login := false;
     LoginPassword := ""; LoginServer := ""; LoginUsername := "" |}.

Definition demo_driver_logout_fails : Driver :=
  {| drv_Login := fun _ _ _ _ => None;
     drv_Logout := fun _ _ => Some "not logged in";
     drv_Pull := fun _ _ => None;
     drv_StartContainer := fun _ _ => ("c1", None);
     drv_KillContainer := fun _ _ => None |}.

Definition demo_world_no_config : World :=
  {| bag := <["ui" := VUi]> (<["temp_dir" := VString "/tmp/packer"]> ∅);
     calls := []; ui_out := []; log_out := [] |}.

(* ===================================================================== *)
(** ** The model on examples                                              *)
(* ===================================================================== *)

Example Base_file : Go.Base "/tmp/dir/file.txt" = "file.txt".
Proof. reflexivity. Qed.
Example Base_trailing : Go.Base "/tmp/dir//" = "dir".
Proof. reflexivity. Qed.
Example Base_root : Go.Base "///" = "/".
Proof. reflexivity. Qed.
Example Base_plain : Go.Base "file" = "file".
Proof. reflexivity. Qed.
Example Dir_file : Go.Dir "/tmp/dir/file.txt" = "/tmp/dir".
Proof. reflexivity. Qed.
Example Dir_plain : Go.Dir "file" = ".".
Proof. reflexivity. Qed.
Example Dir_root : Go.Dir "/file" = "/".
Proof. reflexivity. Qed.
Example Dir_dots : Go.Dir "/a/./b/../c//d" = "/a/c".
Proof. reflexivity. Qed.
Example Dir_up : Go.Dir "../../x" = "../..".
Proof. reflexivity. Qed.

(** The exec invocation with a pseudo-terminal and an execution user. *)
Example podmanArgs_pty_user :
  podmanArgs
    {| ContainerID := "c1"; HostDir := "/tmp/packer";
       ContainerDir := "/packer-files"; Version := "4.9.0";
       Config_of :=
         {| ContainerDir_cfg := "/packer-files"; Device := []; CapAdd := [];
            CapDrop := []; ExecUser := "1000:1000"; Image := "alpine";
            Privileged := false; Pty := true; Pull := true; RunCommand := [];
            TmpFs := []; Volumes := ∅; FixUploadOwner := true;
            Systemd := "true"; Login := false; LoginPassword := "";
            LoginServer := ""; LoginUsername := "" |};
       ContainerUser := ""; EntryPoint := ["/bin/sh"; "-c"] |}
    (demo_remote "ls /")
  = ["exec"; "-i"; "-u"; "1000:1000"; "-t"; "c1"; "/bin/sh"; "-c"; "(ls /)"].
Proof. reflexivity. Qed.

(** A pure-stream upload: the temporary file, the archive, the chown, and the
    deferred close and removal of the temporary file. *)
Example Upload_stream_events :
  Upload demo_comm "/opt/app/run.sh" {| r_data := "#!/bin/sh"; r_err := None |}
    None (demo_proc_env TarEnd "") demo_tar_env demo_temp_env
  = ([EvCreateTemp "/tmp/packer"; EvWriteTemp "#!/bin/sh";
      EvLog "Copying to /opt/app/run.sh on container c1.";
      EvStart ["podman"; "cp"; "-"; "c1:/opt/app"] true;
      EvTarHeader "run.sh" 9 false; EvTarBody "#!/bin/sh";
      EvLog "Copied 9 bytes for /opt/app/run.sh"; EvTarClose; EvStdinClose;
      EvReadStderr ""; EvWait ["podman"; "cp"; "-"; "c1:/opt/app"];
      EvRun ["podman"; "exec"; "--user"; "root"; "c1"; "/bin/sh"; "-c";
             "chown -R root /opt/app/run.sh"];
      EvCloseTemp; EvRemoveTemp],
     Ok tt).
Proof. reflexivity. Qed.

(** The second command asks for the lock while the first holds it and is
    left where it is; it proceeds once the first has released the lock. *)
Example second_command_blocked :
  step 1 (exec [0; 0; 0] (init (submit demo_comm demo_cmds))) = None
  /\ holder (exec [0; 0; 0; 0; 0; 0; 0; 1]
               (init (submit demo_comm demo_cmds))) = Some 1.
Proof. split; reflexivity. Qed.

(* ===================================================================== *)
(** ** Facts about the monad                                              *)
(* ===================================================================== *)

Section MonadFacts.
Context {A B : Type}.

Lemma events_bind (m : M A) (k : A -> M B) :
  events (bind m k)
  = events m ++ match result m with Ok a => events (k a) | _ => [] end.
Proof.
  destruct m as [evs [a|e|p]]; simpl; rewrite ?app_nil_r; try reflexivity.
  destruct (k a); reflexivity.
Qed.

Lemma result_bind (m : M A) (k : A -> M B) :
  result (bind m k)
  = match result m with
    | Ok a => result (k a)
    | Err e => Err e
    | Panic p => Panic p
    end.
Proof.
  destruct m as [evs [a|e|p]]; simpl; try reflexivity.
  destruct (k a); reflexivity.
Qed.

Lemma lockfree_bind (m : M A) (k : A -> M B) :
  lockfree (events m) = true ->
  (forall a, lockfree (events (k a)) = true) ->
  lockfree (events (bind m k)) = true.
Proof.
  intros Hm Hk. rewrite events_bind. unfold lockfree in *.
  rewrite forallb_app, Hm. simpl.
  destruct (result m); auto.
Qed.

End MonadFacts.

Lemma lockfree_app l1 l2 :
  lockfree (l1 ++ l2) = lockfree l1 && lockfree l2.
Proof. apply forallb_app. Qed.

Lemma lockfree_check err wrap : lockfree (events (check err wrap)) = true.
Proof. destruct err; reflexivity. Qed.

Lemma lockfree_wrap_err {A} (m : M A) wrap :
  lockfree (events m) = true -> lockfree (events (wrap_err m wrap)) = true.
Proof. destruct m as [evs [a|e|p]]; auto. Qed.

Lemma lockfree_with_defer {A} (m : M A) d :
  lockfree (events m) = true -> lockfree d = true ->
  lockfree (events (with_defer m d)) = true.
Proof.
  intros Hm Hd. unfold with_defer, events in *. simpl.
  rewrite lockfree_app, Hm, Hd. reflexivity.
Qed.

Create HintDb lockfree.
#[local] Hint Resolve lockfree_check : lockfree.

Ltac lockfree_tac :=
  repeat first
    [ reflexivity
    | solve [ auto with lockfree nocore ]
    | apply lockfree_wrap_err
    | apply lockfree_with_defer
    | apply lockfree_bind; [ | intros ]
    | progress (cbv zeta)
    | match goal with
      | |- lockfree (events (match ?x with _ => _ end)) = true => destruct x
      | |- lockfree (match ?x with _ => _ end) = true => destruct x
      | |- lockfree (_ :: match ?x with _ => _ end) = true => destruct x
      end ].

Lemma lockfree_fixDestinationOwner c dst env :
  lockfree (events (fixDestinationOwner c dst env)) = true.
Proof. unfold fixDestinationOwner. lockfree_tac. Qed.
#[local] Hint Resolve lockfree_fixDestinationOwner : lockfree.

Lemma lockfree_copy_to_archive size src tenv :
  lockfree (events (copy_to_archive size src tenv)) = true.
Proof. unfold copy_to_archive. lockfree_tac. Qed.
#[local] Hint Resolve lockfree_copy_to_archive : lockfree.

Lemma lockfree_close_archive size n tenv :
  lockfree (events (close_archive size n tenv)) = true.
Proof. unfold close_archive. lockfree_tac. Qed.
#[local] Hint Resolve lockfree_close_archive : lockfree.

Lemma lockfree_uploadFile c dst src fi env tenv :
  lockfree (events (uploadFile c dst src fi env tenv)) = true.
Proof. unfold uploadFile. lockfree_tac. Qed.
#[local] Hint Resolve lockfree_uploadFile : lockfree.

Lemma lockfree_Upload c dst src fi env tenv fenv :
  lockfree (events (Upload c dst src fi env tenv fenv)) = true.
Proof. unfold Upload, uploadReader. lockfree_tac. Qed.

Lemma lockfree_UploadDir c dst src exclude env :
  lockfree (events (UploadDir c dst src exclude env)) = true.
Proof. unfold UploadDir. lockfree_tac. Qed.

Lemma lockfree_copy_to_writer dst body body_err :
  lockfree (events (copy_to_writer dst body body_err)) = true.
Proof. unfold copy_to_writer. lockfree_tac. Qed.
#[local] Hint Resolve lockfree_copy_to_writer : lockfree.

Lemma lockfree_Download c src dst env :
  lockfree (events (Download c src dst env)) = true.
Proof. unfold Download. lockfree_tac. Qed.

(* ===================================================================== *)
(** ** The lock discipline                                                *)
(* ===================================================================== *)

Lemma lockfree_cons e l :
  lockfree (e :: l) = negb (is_lockop e) && lockfree l.
Proof. reflexivity. Qed.

Lemma critical_not_lockfree l : critical l -> lockfree l = true -> False.
Proof.
  intros (body & -> & _) H. rewrite lockfree_app in H.
  apply andb_true_iff in H as [_ H]. discriminate.
Qed.

Lemma critical_not_waiting l : critical l -> waiting l -> False.
Proof.
  intros (b1 & -> & H1) (b2 & E & _).
  destruct b1 as [|e b1]; simpl in E; [discriminate|].
  injection E as -> _. discriminate.
Qed.

Lemma critical_head e rest :
  critical (e :: rest) ->
  (e = EvUnlock /\ rest = []) \/ (is_lockop e = false /\ critical rest).
Proof.
  intros (body & E & H). destruct body as [|e' body]; simpl in E.
  - injection E as -> ->. left. auto.
  - injection E as -> ->. rewrite lockfree_cons in H.
    apply andb_true_iff in H as [He H]. right. split.
    + destruct e'; simpl in *; congruence.
    + exists body. auto.
Qed.

Lemma shaped_tail e rest :
  shaped (e :: rest) ->
  match e with
  | EvLock => critical rest
  | EvUnlock => rest = []
  | _ => (critical (e :: rest) <-> critical rest) /\ shaped rest
  end.
Proof.
  intros [(body & E & H) | [Hc | Hf]].
  - injection E as -> ->. exists body. auto.
  - destruct (critical_head _ _ Hc) as [[-> ->] | [He Hr]]; [reflexivity|].
    destruct e; try discriminate He;
      (split; [ split; [ intros _; exact Hr | intros _; exact Hc ]
              | right; left; exact Hr ]).
  - rewrite lockfree_cons in Hf. apply andb_true_iff in Hf as [He Hf].
    destruct e; try discriminate He;
      (split; [ split; intros Hc;
                [ exfalso; apply (critical_not_lockfree _ Hc);
                  rewrite lockfree_cons, Hf; reflexivity
                | destruct (critical_not_lockfree _ Hc Hf) ]
              | right; right; exact Hf ]).
Qed.

Lemma Inv_step i s s' : Inv s -> step i s = Some s' -> Inv s'.
Proof.
  intros [Hshape Hhold] Hstep. unfold step in Hstep.
  destruct (tasks s !! i) as [[d [|e rest]]|] eqn:Hi; try discriminate.
  pose proof (Hshape _ _ Hi) as Hsh. simpl in Hsh.
  apply shaped_tail in Hsh.
  assert (Hlt : i < length (tasks s)) by (eapply lookup_lt_Some; eauto).
  destruct e;
    try (injection Hstep as <-; destruct Hsh as [Hiff Hsh]; split; simpl;
         intros j t Hj;
         (destruct (decide (j = i)) as [->|Hne];
          [ rewrite list_lookup_insert_eq in Hj by auto; injection Hj as <-;
            simpl
          | rewrite list_lookup_insert_ne in Hj by auto ]);
         [ exact Hsh | eauto | intros Hc; apply (Hhold _ _ Hi), Hiff, Hc
         | eauto ]).
  - (* Lock *)
    destruct (holder s) eqn:Hh; [discriminate|]. injection Hstep as <-.
    split; simpl; intros j t Hj;
      (destruct (decide (j = i)) as [->|Hne];
       [ rewrite list_lookup_insert_eq in Hj by auto; injection Hj as <-; simpl
       | rewrite list_lookup_insert_ne in Hj by auto ]).
    + right. left. exact Hsh.
    + eauto.
    + reflexivity.
    + intros Hc. pose proof (Hhold _ _ Hj Hc) as Hj'. congruence.
  - (* Unlock *)
    subst rest.
    assert (Hci : holder s = Some i).
    { apply (Hhold _ _ Hi). exists []. auto. }
    rewrite Hci in Hstep. injection Hstep as <-.
    split; simpl; intros j t Hj;
      (destruct (decide (j = i)) as [->|Hne];
       [ rewrite list_lookup_insert_eq in Hj by auto; injection Hj as <-; simpl
       | rewrite list_lookup_insert_ne in Hj by auto ]).
    + right. right. reflexivity.
    + eauto.
    + intros Hc. destruct (critical_not_lockfree _ Hc eq_refl).
    + intros Hc. pose proof (Hhold _ _ Hj Hc) as Hj'.
      rewrite Hci in Hj'. congruence.
Qed.

Lemma Inv_exec sched : forall s, Inv s -> Inv (exec sched s).
Proof.
  induction sched as [|i sched IH]; intros s HI; [exact HI|].
  simpl. apply IH. destruct (step i s) eqn:Hs; simpl; [|exact HI].
  eapply Inv_step; eauto.
Qed.

Lemma step_script i s s' :
  step i s = Some s' -> script_of <$> tasks s' = script_of <$> tasks s.
Proof.
  unfold step. destruct (tasks s !! i) as [[d [|e rest]]|] eqn:Hi;
    try discriminate.
  assert (E : script_of <$> <[i := {| done := d ++ [e]; todo := rest |}]> (tasks s)
              = script_of <$> tasks s).
  { rewrite list_fmap_insert. apply list_insert_id.
    rewrite list_lookup_fmap, Hi. unfold script_of; simpl.
    rewrite <- app_assoc. reflexivity. }
  destruct e; try (intros [= <-]; exact E);
    destruct (holder s); try discriminate; intros [= <-]; exact E.
Qed.

Lemma exec_script sched :
  forall s, script_of <$> tasks (exec sched s) = script_of <$> tasks s.
Proof.
  induction sched as [|i sched IH]; intros s; [reflexivity|].
  simpl. rewrite IH. destruct (step i s) eqn:Hs; simpl; [|reflexivity].
  eapply step_script; eauto.
Qed.

Lemma Inv_init ops :
  (forall m, m ∈ ops -> waiting (events m) \/ lockfree (events m) = true) ->
  Inv (init ops).
Proof.
  intros H. split; simpl; intros i t Hi;
    apply list_lookup_fmap_Some in Hi as (m & -> & Hm);
    apply list_elem_of_lookup_2 in Hm; destruct (H _ Hm) as [Hw|Hf]; simpl.
  - left; auto.
  - right; right; auto.
  - intros Hc. destruct (critical_not_waiting _ Hc Hw).
  - intros Hc. destruct (critical_not_lockfree _ Hc Hf).
Qed.

Lemma run_shape c cmd remote env :
  exists body,
    events (run c cmd remote env) = EvLock :: body ++ [EvUnlock]
    /\ lockfree body = true
    /\ (existsb is_spawn body = true -> existsb is_wait body = true).
Proof.
  unfold run, with_defer, events, when.
  destruct (Stdout remote), (Stderr remote), (Stdin remote), (ee_start env);
    simpl;
    match goal with
    | |- exists body, ?l = _ /\ _ => exists (removelast (tl l))
    end;
    (split; [reflexivity|]); split; try reflexivity;
    simpl; intros H; try discriminate H; reflexivity.
Qed.

Lemma submit_elem c cmds m :
  m ∈ submit c cmds -> exists cmd remote env, m = run c cmd remote env.
Proof.
  unfold submit. intros H. apply list_elem_of_omap in H as ([remote env] & _ & H).
  unfold Start in H. simpl in H.
  destruct (ee_stdin_pipe env); [discriminate|].
  destruct (ee_stderr_pipe env); [discriminate|].
  destruct (ee_stdout_pipe env); [discriminate|].
  injection H as <-. eauto.
Qed.

Lemma app_eq_snoc {A} (d t body : list A) (x : A) :
  d ++ t = body ++ [x] -> t <> [] ->
  exists t', t = t' ++ [x] /\ body = d ++ t'.
Proof.
  intros E Ht. destruct (exists_last Ht) as (t' & y & ->).
  rewrite app_assoc in E. apply app_inj_tail in E as [<- ->]. eauto.
Qed.

(** A task that runs a locked script and is strictly inside it is in its
    critical section. *)
Lemma inside_critical (t : Task) body :
  script_of t = EvLock :: body ++ [EvUnlock] -> lockfree body = true ->
  running t = true -> critical (todo t).
Proof.
  unfold script_of, running. intros E Hb Hr.
  apply andb_true_iff in Hr as [Hd Ht].
  apply negb_true_iff, bool_decide_eq_false in Hd, Ht.
  destruct (done t) as [|e d]; [congruence|]. simpl in E. injection E as -> E.
  destruct (app_eq_snoc _ _ _ _ E Ht) as (t' & -> & ->).
  exists t'. split; [reflexivity|].
  rewrite lockfree_app in Hb. apply andb_true_iff in Hb. tauto.
Qed.

Lemma in_flight_running (t : Task) body :
  script_of t = EvLock :: body ++ [EvUnlock] ->
  (existsb is_spawn body = true -> existsb is_wait body = true) ->
  cmd_in_flight t = true -> running t = true.
Proof.
  unfold script_of, cmd_in_flight, running. intros E Hw H.
  apply andb_true_iff in H as [Hs Hn]. apply negb_true_iff in Hn.
  apply andb_true_iff. split; apply negb_true_iff, bool_decide_eq_false.
  - intros Hd. rewrite Hd in Hs. discriminate.
  - intros Ht. rewrite Ht, app_nil_r in E. rewrite E in Hs, Hn.
    simpl in Hs, Hn. rewrite !existsb_app in Hs, Hn. simpl in Hs, Hn.
    rewrite !orb_false_r in Hs, Hn. rewrite (Hw Hs), existsb_app in Hn.
    simpl in Hn. rewrite orb_true_r in Hn. discriminate.
Qed.

Section Serialization.
Variable c : Communicator.
Variable cmds : list (RemoteCmd * ExecEnv).
Variable sched : list nat.

Lemma submit_Inv : Inv (exec sched (init (submit c cmds))).
Proof.
  apply Inv_exec, Inv_init. intros m Hm. left.
  destruct (submit_elem _ _ _ Hm) as (cmd & remote & env & ->).
  destruct (run_shape c cmd remote env) as (body & E & Hb & _).
  exists body. auto.
Qed.

Lemma submit_script i t :
  tasks (exec sched (init (submit c cmds))) !! i = Some t ->
  exists body,
    script_of t = EvLock :: body ++ [EvUnlock]
    /\ lockfree body = true
    /\ (existsb is_spawn body = true -> existsb is_wait body = true).
Proof.
  intros Hi.
  assert (H : (script_of <$> tasks (exec sched (init (submit c cmds)))) !! i = Some (script_of t))
    by (rewrite list_lookup_fmap, Hi; reflexivity).
  rewrite exec_script in H. simpl in H.
  rewrite <- list_fmap_compose in H.
  apply list_lookup_fmap_Some in H as (m & E & Hm).
  apply list_elem_of_lookup_2, submit_elem in Hm as (cmd & remote & env & ->).
  rewrite E. apply run_shape.
Qed.

Lemma running_holds i t :
  tasks (exec sched (init (submit c cmds))) !! i = Some t -> running t = true ->
  holder (exec sched (init (submit c cmds))) = Some i.
Proof.
  intros Hi Hr. destruct (submit_script _ _ Hi) as (body & E & Hb & _).
  destruct submit_Inv as [_ Hhold]. apply (Hhold _ _ Hi).
  eapply inside_critical; eauto.
Qed.

End Serialization.

(** C2. However the goroutines launched by successive [Start] calls on one
    Communicator are scheduled, a goroutine that has taken its first step
    ([Lock]) and has not finished holds the lock during all of spawn,
    stream copy and wait; and two commands are never in flight together:
    while the process of one has been spawned and its wait has not returned
    or its lock is not yet released, no other command's process has been
    spawned. *)
Theorem commands_serialized (c : Communicator)
    (cmds : list (RemoteCmd * ExecEnv)) (sched : list nat)
    (i j : nat) (ti tj : Task) :
  tasks (exec sched (init (submit c cmds))) !! i = Some ti ->
  tasks (exec sched (init (submit c cmds))) !! j = Some tj ->
  (running ti = true -> holder (exec sched (init (submit c cmds))) = Some i)
  /\ (cmd_in_flight ti = true -> cmd_in_flight tj = true -> i = j).
Proof.
  intros Hi Hj. split.
  - apply running_holds; exact Hi.
  - intros Fi Fj.
    destruct (submit_script c cmds sched _ _ Hi) as (bi & Ei & _ & Wi).
    destruct (submit_script c cmds sched _ _ Hj) as (bj & Ej & _ & Wj).
    pose proof (running_holds c cmds sched _ _ Hi
                  (in_flight_running _ _ Ei Wi Fi)) as H1.
    pose proof (running_holds c cmds sched _ _ Hj
                  (in_flight_running _ _ Ej Wj Fj)) as H2.
    congruence.
Qed.

Lemma commands_serialized_witness :
  exists t,
    tasks (exec demo_sched (init (submit demo_comm demo_cmds))) !! 0 = Some t
    /\ cmd_in_flight t = true
    /\ holder (exec demo_sched (init (submit demo_comm demo_cmds))) = Some 0.
Proof.
  eexists. split; [reflexivity|]. split; [reflexivity|].
  exact (proj1 (commands_serialized demo_comm demo_cmds demo_sched 0 0 _ _
                  eq_refl eq_refl) eq_refl).
Defined.

Lemma lockfree_suffix d t : lockfree (d ++ t) = true -> lockfree t = true.
Proof. rewrite lockfree_app. intros H. apply andb_true_iff in H. tauto. Qed.

Lemma lockfree_transfer c op : transfer_op c op -> lockfree (events op) = true.
Proof.
  intros []; [apply lockfree_Upload | apply lockfree_UploadDir
             | apply lockfree_Download].
Qed.

(** C3, as the code has it.  Upload, UploadDir and Download never acquire
    or release the Communicator's lock: they run synchronously in their
    caller, and each of their steps can be taken whatever the state of the
    lock (also while a remote command holds it) and leaves the lock as it
    is. *)
Theorem transfers_ignore_lock (c : Communicator) (op : M unit)
    (s : Sys) (i : nat) (t : Task) (e : Event) (rest : list Event) :
  transfer_op c op ->
  tasks s !! i = Some t ->
  script_of t = events op ->
  todo t = e :: rest ->
  lockfree (events op) = true
  /\ exists s', step i s = Some s' /\ holder s' = holder s.
Proof.
  intros Hop Hi Hscr Htodo. pose proof (lockfree_transfer _ _ Hop) as Hf.
  split; [exact Hf|].
  rewrite <- Hscr in Hf. apply lockfree_suffix in Hf. rewrite Htodo in Hf.
  rewrite lockfree_cons in Hf. apply andb_true_iff in Hf as [He _].
  unfold step. rewrite Hi. destruct t as [d td]. simpl in Htodo. subst td.
  destruct e; try discriminate He; eexists; split; reflexivity.
Qed.

Lemma transfers_ignore_lock_witness :
  exists s',
    step 1 (exec [0; 0; 0] (init demo_mixed)) = Some s'
    /\ holder s' = Some 0.
Proof.
  destruct (transfers_ignore_lock demo_comm
              (Download demo_comm "/etc/hostname" {| w_fail := None |}
                 (demo_proc_env (TarEntry "hostname" "c1" None TarEnd) ""))
              (exec [0; 0; 0] (init demo_mixed)) 1 _ _ _
              (transfer_Download _ _ _ _) eq_refl eq_refl eq_refl)
    as [_ (s' & Hs & Hh)].
  exists s'. split; [exact Hs|]. rewrite Hh. reflexivity.
Defined.

(** C3 as stated fails: Download takes no lock, and there is a schedule in
    which the download's copy process is spawned while a remote command is in
    flight and holds the lock. *)
Lemma transfers_serialized_counterexample :
  lockfree (events (Download demo_comm "/etc/hostname" {| w_fail := None |}
                      (demo_proc_env (TarEntry "hostname" "c1" None TarEnd) "")))
  = true
  /\ exists t0 t1,
      tasks (exec [0; 0; 0; 1; 1] (init demo_mixed)) !! 0 = Some t0
      /\ tasks (exec [0; 0; 0; 1; 1] (init demo_mixed)) !! 1 = Some t1
      /\ holder (exec [0; 0; 0; 1; 1] (init demo_mixed)) = Some 0
      /\ cmd_in_flight t0 = true
      /\ transfer_in_flight t1 = true.
Proof.
  split; [reflexivity|].
  do 2 eexists. repeat split; reflexivity.
Qed.

(* ===================================================================== *)
(** ** Exit status                                                        *)
(* ===================================================================== *)

Lemma ExitStatus_exited code :
  (0 <= code <= 255)%Z -> Go.ExitStatus (wait_status (ProcExited code)) = code.
Proof.
  intros H. unfold Go.ExitStatus, Go.Exited, wait_status.
  assert (E : Z.land (Z.shiftl code 8) 127 = 0%Z).
  { apply Z.bits_inj'. intros n Hn. rewrite Z.land_spec, Z.bits_0.
    destruct (Z.ltb_spec n 8).
    - rewrite Z.shiftl_spec_low by lia. reflexivity.
    - change 127%Z with (Z.ones 7). rewrite Z.ones_spec_high by lia.
      apply andb_false_r. }
  rewrite E. simpl. rewrite Z.shiftr_shiftl_l by lia. simpl.
  change 255%Z with (Z.ones 8). rewrite Z.land_ones by lia.
  apply Z.mod_small. change (2 ^ 8)%Z with 256%Z. lia.
Qed.

Lemma ExitStatus_signaled sig core :
  (1 <= sig <= 126)%Z ->
  Go.ExitStatus (wait_status (ProcSignaled sig core)) = (-1)%Z.
Proof.
  intros H. unfold Go.ExitStatus, Go.Exited, wait_status.
  assert (E : Z.land (Z.lor sig (if core then 128 else 0)) 127 = sig).
  { rewrite Z.land_lor_distr_l.
    change 127%Z with (Z.ones 7). rewrite !Z.land_ones by lia.
    change (2 ^ 7)%Z with 128%Z.
    rewrite (Z.mod_small sig) by lia.
    destruct core; simpl; [|apply Z.lor_0_r].
    apply Z.lor_0_r. }
  rewrite E. destruct (Z.eqb_spec sig 0); [lia|reflexivity].
Qed.

Lemma wait_status_signaled sig core :
  (1 <= sig <= 126)%Z -> Go.Signaled (wait_status (ProcSignaled sig core)) = true.
Proof.
  intros H. unfold Go.Signaled, wait_status.
  assert (E : Z.land (Z.lor sig (if core then 128 else 0)) 127 = sig).
  { rewrite Z.land_lor_distr_l.
    change 127%Z with (Z.ones 7). rewrite !Z.land_ones by lia.
    change (2 ^ 7)%Z with 128%Z.
    rewrite (Z.mod_small sig) by lia.
    destruct core; simpl; apply Z.lor_0_r. }
  rewrite E.
  destruct (Z.eqb_spec sig 127); [lia|].
  destruct (Z.eqb_spec sig 0); [lia|reflexivity].
Qed.

(** An error of [cmd.Wait()] that is not an [*exec.ExitError] leaves the
    status at its zero value. *)
Example exitStatus_other_error :
  exitStatus_of (WaitOtherError "wait: no child processes") = 0%Z.
Proof. reflexivity. Qed.

Lemma published_run_spawned c cmd remote env :
  ee_start env = None ->
  published (events (run c cmd remote env)) = [exitStatus_of (ee_wait env)].
Proof.
  intros H. unfold run, with_defer, events, when. rewrite H.
  destruct (Stdout remote), (Stderr remote), (Stdin remote); reflexivity.
Qed.

Lemma published_run_failed c cmd remote env err :
  ee_start env = Some err ->
  published (events (run c cmd remote env)) = [254%Z].
Proof.
  intros H. unfold run, with_defer, events, when. rewrite H.
  destruct (Stdout remote), (Stderr remote); reflexivity.
Qed.

(** C1. For a remote command whose exec process was spawned and ended as
    [p], [run] publishes exactly one exit status; it is 0 if and only if the
    process exited normally with code 0 (so never for a signal or a nonzero
    code), and it is 1 whenever the process did not succeed and the wait
    status is not available on the platform. *)
Theorem run_exit_status (c : Communicator) (cmd : list string)
    (remote : RemoteCmd) (env : ExecEnv) (facility : bool) (p : ProcExit) :
  wf_exit p ->
  ee_start env = None ->
  ee_wait env = cmd_Wait facility p ->
  exists status,
    published (events (run c cmd remote env)) = [status]
    /\ (status = 0%Z <-> p = ProcExited 0)
    /\ (facility = false -> p <> ProcExited 0 -> status = 1%Z).
Proof.
  intros Hwf Hstart Hwait. exists (exitStatus_of (ee_wait env)).
  split; [apply published_run_spawned; exact Hstart|].
  rewrite Hwait. unfold cmd_Wait.
  destruct p as [code|sig core]; simpl in *.
  - destruct (Z.eqb_spec code 0) as [->|Hne]; simpl.
    + split; [tauto|]. intros _ Hp. congruence.
    + destruct facility; simpl.
      * pose proof (ExitStatus_exited code Hwf) as E. simpl in E. rewrite E.
        split; [|discriminate]. split; [lia|]. intros [= ->]. lia.
      * split; [|reflexivity]. split; [discriminate|]. intros [= ->]. lia.
  - destruct facility; simpl.
    + pose proof (ExitStatus_signaled sig core Hwf) as E. simpl in E. rewrite E.
      split; [|discriminate]. split; discriminate.
    + split; [|reflexivity]. split; discriminate.
Qed.

Lemma run_exit_status_witness :
  exists status,
    published (events (run demo_comm ["podman"; "exec"; "-i"; "c1"; "/bin/sh"; "-c"; "(make)"]
                         (demo_remote "make")
                         (demo_exec_env None (cmd_Wait true (ProcSignaled 9 false)))))
    = [status]
    /\ (status = 0%Z <-> ProcSignaled 9 false = ProcExited 0)
    /\ (true = false -> ProcSignaled 9 false <> ProcExited 0 -> status = 1%Z).
Proof.
  apply (run_exit_status demo_comm _ (demo_remote "make")
           (demo_exec_env None (cmd_Wait true (ProcSignaled 9 false)))
           true (ProcSignaled 9 false)).
  - simpl. lia.
  - reflexivity.
  - reflexivity.
Defined.

(** C9. When the three pipes are set up, [Start] returns nil and launches
    the goroutine, also when the process then fails to spawn; the goroutine
    attempts the spawn, publishes exactly the status 254 and nothing else,
    and returns. *)
Theorem Start_spawn_failure (c : Communicator) (remote : RemoteCmd)
    (env : ExecEnv) (err : string) :
  ee_stdin_pipe env = None ->
  ee_stderr_pipe env = None ->
  ee_stdout_pipe env = None ->
  ee_start env = Some err ->
  exists g,
    Start c remote env = (ret tt, Some g)
    /\ EvStart ("podman" :: podmanArgs c remote) false ∈ events g
    /\ published (events g) = [254%Z]
    /\ existsb is_wait (events g) = false.
Proof.
  intros H1 H2 H3 H4. unfold Start. rewrite H1, H2, H3.
  eexists. split; [reflexivity|].
  split; [|split; [eapply published_run_failed; eauto|]].
  - unfold run, with_defer, events, when. rewrite H4.
    destruct (Stdout remote), (Stderr remote); simpl; set_solver.
  - unfold run, with_defer, events, when. rewrite H4.
    destruct (Stdout remote), (Stderr remote); reflexivity.
Qed.

Lemma Start_spawn_failure_witness :
  exists g,
    Start demo_comm (demo_remote "make")
      (demo_exec_env (Some "exec: podman: not found") WaitNil) = (ret tt, Some g)
    /\ published (events g) = [254%Z].
Proof.
  destruct (Start_spawn_failure demo_comm (demo_remote "make")
              (demo_exec_env (Some "exec: podman: not found") WaitNil)
              "exec: podman: not found" eq_refl eq_refl eq_refl eq_refl)
    as (g & Hg & _ & Hp & _).
  exists g. split; [exact Hg | exact Hp].
Defined.

(* ===================================================================== *)
(** ** The Pull and Run steps                                             *)
(* ===================================================================== *)

(** C4. In the Pull step with pull and login configured, the driver is
    first asked to log in.  If that fails, the step halts with the error
    recorded in the bag and the driver receives no other call (no pull, no
    logout).  If it succeeds, the driver then receives exactly the pull
    followed by exactly one logout before [Run] returns, whether or not the
    pull succeeded. *)
Theorem StepPull_login_logout (w : World) (config : Config) (driver : Driver) :
  bag w !! "ui" = Some VUi ->
  bag w !! "config" = Some (VConfig config) ->
  bag w !! "driver" = Some (VDriver driver) ->
  Pull config = true ->
  Login config = true ->
  let login := CallLogin (LoginServer config) (LoginUsername config)
                 (LoginPassword config) in
  exists a w',
    StepPull.Run w = Returned a w'
    /\ match drv_Login driver (calls w) (LoginServer config)
               (LoginUsername config) (LoginPassword config) with
       | Some err =>
           calls w' = calls w ++ [login]
           /\ a = ActionHalt
           /\ bag w' !! "error" = Some (VError ("Error logging in: " +:+ err))
       | None =>
           calls w' = calls w ++ [login; CallPull (Image config);
                                  CallLogout (LoginServer config)]
           /\ logouts (calls w') = logouts (calls w) ++ [LoginServer config]
           /\ (a = ActionContinue <->
               drv_Pull driver (calls w ++ [login]) (Image config) = None)
       end.
Proof.
  intros Hui Hcfg Hdrv Hpull Hlogin login.
  unfold StepPull.Run. rewrite Hui, Hcfg, Hpull. simpl.
  rewrite Hdrv, Hlogin.
  destruct (drv_Login driver (calls w) (LoginServer config)
              (LoginUsername config) (LoginPassword config)) as [err|] eqn:HL.
  - do 2 eexists. split; [reflexivity|]. simpl.
    split; [reflexivity|]. split; [reflexivity|].
    apply lookup_insert_eq.
  - unfold StepPull.pull, StepPull.deferred, StepPull.logout, halt. simpl.
    destruct (drv_Pull driver (calls w ++ [login]) (Image config)) as [perr|] eqn:HP;
      subst login; rewrite HP;
      do 2 eexists; (split; [reflexivity|]);
      (split; [|split]).
    + simpl. destruct (drv_Logout _ _ _); simpl; rewrite <- !app_assoc; reflexivity.
    + unfold logouts.
      destruct (drv_Logout _ _ _); simpl; rewrite <- !app_assoc, omap_app;
        reflexivity.
    + split; discriminate.
    + simpl. destruct (drv_Logout _ _ _); simpl; rewrite <- !app_assoc; reflexivity.
    + unfold logouts.
      destruct (drv_Logout _ _ _); simpl; rewrite <- !app_assoc, omap_app;
        reflexivity.
    + split; reflexivity.
Qed.

Lemma StepPull_login_logout_witness :
  exists a w',
    StepPull.Run (demo_world (demo_driver None (Some "manifest unknown")))
    = Returned a w'
    /\ calls w' = [CallLogin "registry.test" "builder" "secret";
                   CallPull "alpine"; CallLogout "registry.test"]
    /\ a = ActionHalt.
Proof.
  destruct (StepPull_login_logout
              (demo_world (demo_driver None (Some "manifest unknown")))
              demo_config (demo_driver None (Some "manifest unknown"))
              eq_refl eq_refl eq_refl eq_refl eq_refl)
    as (a & w' & HR & Hc & _ & Ha).
  exists a, w'. split; [exact HR|]. split; [exact Hc|].
  destruct a; [|reflexivity].
  destruct Ha as [Ha _]. discriminate (Ha eq_refl).
Defined.

(** What a successful [Run] records: the handle in the step itself and under
    both keys of the bag. *)
Lemma StepRun_Run_records (s s' : StepRun.t) (w w' : World) :
  StepRun.Run s w = Returned (ActionContinue, s') w' ->
  bag w' !! "container_id" = Some (VString (StepRun.containerId s'))
  /\ bag w' !! "instance_id" = Some (VString (StepRun.containerId s')).
Proof.
  unfold StepRun.Run, halt.
  destruct (bag w !! "ui") as [[]|]; try discriminate.
  destruct (bag w !! "config") as [[]|]; try discriminate.
  destruct (bag w !! "temp_dir") as [[]|]; try discriminate.
  destruct (bag w !! "driver") as [[]|]; try discriminate.
  destruct (drv_StartContainer _ _ _) as [id [err|]]; try discriminate.
  intros [= <- <-]. simpl. split.
  - rewrite lookup_insert_ne by discriminate. apply lookup_insert_eq.
  - apply lookup_insert_eq.
Qed.

(** C5, as the code has it.  [Cleanup] issues exactly one [KillContainer]
    call for the recorded handle when there is one and none otherwise,
    returns normally whatever the driver answers, leaves the step with the
    empty handle, so that a second [Cleanup] changes nothing, and does not
    touch the state bag: the key ["container_id"] keeps its value.  The
    driver and the UI are looked up in the bag only when a handle is
    recorded. *)
Theorem StepRun_Cleanup_once (s : StepRun.t) (w : World) (driver : Driver) :
  (StepRun.containerId s <> "" ->
   bag w !! "driver" = Some (VDriver driver) /\ bag w !! "ui" = Some VUi) ->
  exists s' w',
    StepRun.Cleanup s w = Returned s' w'
    /\ StepRun.containerId s' = ""
    /\ calls w' = calls w ++ (if String.eqb (StepRun.containerId s) "" then []
                              else [CallKillContainer (StepRun.containerId s)])
    /\ bag w' = bag w
    /\ StepRun.Cleanup s' w' = Returned s' w'.
Proof.
  intros H. unfold StepRun.Cleanup.
  destruct (String.eqb_spec (StepRun.containerId s) "") as [E|E].
  - exists s, w. rewrite app_nil_r.
    rewrite (proj2 (String.eqb_eq _ _) E). auto.
  - destruct (H E) as [Hd Hu]. rewrite Hd, Hu.
    do 2 eexists. split; [reflexivity|]. simpl. auto.
Qed.

Lemma StepRun_Cleanup_once_witness :
  exists s' w',
    StepRun.Cleanup {| StepRun.containerId := "c1" |}
      (demo_world (demo_driver None None)) = Returned s' w'
    /\ StepRun.containerId s' = ""
    /\ calls w' = [CallKillContainer "c1"].
Proof.
  destruct (StepRun_Cleanup_once {| StepRun.containerId := "c1" |}
              (demo_world (demo_driver None None)) (demo_driver None None)
              (fun _ => conj eq_refl eq_refl))
    as (s' & w' & HC & Hs & Hc & _).
  exists s', w'. auto.
Defined.

(** C5 as stated fails on its last part: after [Run] recorded the handle
    ["c1"] and [Cleanup] killed the container, the bag still holds ["c1"]
    under ["container_id"], not the empty string. *)
Lemma StepRun_Cleanup_bag_counterexample :
  exists s1 w1 s2 w2,
    StepRun.Run {| StepRun.containerId := "" |}
      (demo_world (demo_driver None None)) = Returned (ActionContinue, s1) w1
    /\ StepRun.containerId s1 = "c1"
    /\ StepRun.Cleanup s1 w1 = Returned s2 w2
    /\ kills (calls w2) = ["c1"]
    /\ bag w2 !! "container_id" = Some (VString "c1")
    /\ bag w2 !! "container_id" <> Some (VString "").
Proof.
  do 4 eexists. repeat split; try reflexivity. discriminate.
Qed.

(* ===================================================================== *)
(** ** File transfer                                                      *)
(* ===================================================================== *)

Lemma bytes_app s1 s2 : Go.bytes (s1 +:+ s2) = Go.bytes s1 ++ Go.bytes s2.
Proof.
  unfold Go.bytes. induction s1 as [|a s1 IH]; simpl; [reflexivity|].
  rewrite IH. reflexivity.
Qed.

Lemma last_byte_snoc p b : Go.last_byte (p +:+ String b "") = Some b.
Proof. unfold Go.last_byte. rewrite bytes_app. apply last_snoc. Qed.

Lemma last_byte_None s : Go.last_byte s = None -> s = "".
Proof.
  unfold Go.last_byte, Go.bytes. destruct s as [|a s]; [reflexivity|].
  simpl. intros H. apply last_None in H. discriminate.
Qed.

Lemma str_app l1 l2 : Go.str (l1 ++ l2) = Go.str l1 +:+ Go.str l2.
Proof.
  unfold Go.str. induction l1 as [|a l1 IH]; simpl; [reflexivity|].
  rewrite IH. reflexivity.
Qed.

Lemma last_byte_Some s b :
  Go.last_byte s = Some b -> exists p, s = p +:+ String b "".
Proof.
  unfold Go.last_byte. intros H. apply last_Some in H as (l & E).
  exists (Go.str l).
  rewrite <- (string_of_list_ascii_of_string s). fold (Go.bytes s).
  fold (Go.str (Go.bytes s)). rewrite E, str_app. reflexivity.
Qed.

Ltac run_monad :=
  unfold fixDestinationOwner, copy_to_archive, close_archive, copy_to_writer,
    wrap_err, with_defer, check, emit, ret, fail, panic, bind, events, result.

(** C7. For a non-empty source path, every copy command that UploadDir
    starts is [podman cp <source> <container>:<dst>], where <source> is the
    path followed by "." when the path ends with the separator and the path
    itself when it does not; once the stderr pipe is there, the command is
    started exactly once. *)
Theorem UploadDir_contents_marker (c : Communicator) (dst src : string)
    (exclude : list string) (env : ProcEnv) :
  src <> "" ->
  pe_stderr_pipe env = None ->
  exists podmanSource,
    started (events (UploadDir c dst src exclude env))
    = [["podman"; "cp"; podmanSource; ContainerID c +:+ ":" +:+ dst]]
    /\ ((exists p, src = p +:+ "/") -> podmanSource = src +:+ ".")
    /\ (~ (exists p, src = p +:+ "/") -> podmanSource = src).
Proof.
  intros Hne Hpipe. unfold UploadDir.
  destruct (Go.last_byte src) as [b|] eqn:Hl;
    [|apply last_byte_None in Hl; contradiction].
  exists (if Go.is_sep b then src +:+ "." else src). split; [|split].
  - run_monad. rewrite Hpipe.
    destruct (pe_start env), (pe_stderr_read env), (pe_wait env),
      (FixUploadOwner (Config_of c)), (pe_chown env) as [[]|]; reflexivity.
  - intros (p & ->). rewrite last_byte_snoc in Hl. injection Hl as <-.
    reflexivity.
  - intros Hn. destruct (Go.is_sep b) eqn:Hb; [|reflexivity].
    exfalso. apply Hn. apply last_byte_Some in Hl as (p & ->).
    unfold Go.is_sep in Hb. apply Ascii.eqb_eq in Hb. subst b. eauto.
Qed.

Lemma UploadDir_contents_marker_witness :
  exists podmanSource,
    started (events (UploadDir demo_comm "/opt/app" "/home/me/app/" []
                       (demo_proc_env TarEnd "")))
    = [["podman"; "cp"; podmanSource; "c1:/opt/app"]]
    /\ podmanSource = "/home/me/app/.".
Proof.
  destruct (UploadDir_contents_marker demo_comm "/opt/app" "/home/me/app/" []
              (demo_proc_env TarEnd "")) as (ps & Hs & Hy & _).
  - discriminate.
  - reflexivity.
  - exists ps. split; [exact Hs|]. apply Hy. exists "/home/me/app". reflexivity.
Defined.

(** C10. UploadDir indexes the last byte of the source path before doing
    anything else: with the empty source it panics with an index out of
    range, having done nothing; and it panics for no other source. *)
Theorem UploadDir_empty_source_panics (c : Communicator) (dst src : string)
    (exclude : list string) (env : ProcEnv) :
  UploadDir c dst "" exclude env
  = ([], Panic "runtime error: index out of range [-1]")
  /\ ((exists msg, result (UploadDir c dst src exclude env) = Panic msg)
      <-> src = "").
Proof.
  split; [reflexivity|]. split.
  - intros (msg & H). unfold UploadDir in H.
    destruct (Go.last_byte src) as [b|] eqn:Hl;
      [|apply last_byte_None in Hl; exact Hl].
    exfalso. revert H. run_monad.
    destruct (pe_stderr_pipe env), (pe_start env), (pe_stderr_read env),
      (pe_wait env), (FixUploadOwner (Config_of c)), (pe_chown env) as [[]|];
      discriminate.
  - intros ->. eexists. reflexivity.
Qed.

(** C6. Once the copy process of a Download is started: if no entry header
    can be read from its output, nothing is written to the destination and
    the error returned carries the text captured from stderr when that text
    could be read and is not empty, and only otherwise the tar header error;
    if an entry is present, the bytes written to the destination are exactly
    the body of the first entry, whatever follows it in the stream. *)
Theorem Download_first_entry (c : Communicator) (src : string) (dst : Writer)
    (env : ProcEnv) :
  pe_stdout_pipe env = None ->
  pe_stderr_pipe env = None ->
  pe_start env = None ->
  (forall err, tar_Next (pe_stdout env) = Err err ->
     written (events (Download c src dst env)) = []
     /\ (pe_stderr_read env = None -> pe_stderr env <> "" ->
         result (Download c src dst env)
         = Err ("Error downloading file: " +:+ pe_stderr env))
     /\ (pe_stderr_read env <> None \/ pe_stderr env = "" ->
         result (Download c src dst env)
         = Err ("Failed to read header from tar stream: " +:+ err)))
  /\ (forall name body body_err rest,
        pe_stdout env = TarEntry name body body_err rest ->
        writer_accepts dst body ->
        written (events (Download c src dst env)) = [body]).
Proof.
  intros H1 H2 H3. split.
  - intros err Hn. unfold Download. rewrite Hn. run_monad.
    rewrite H1, H2, H3. simpl.
    destruct (pe_stderr_read env) as [e|] eqn:Hr; simpl.
    + split; [reflexivity|]. split; [discriminate|]. reflexivity.
    + destruct (String.eqb_spec (pe_stderr env) "") as [He|He]; simpl.
      * split; [reflexivity|]. split; [contradiction|]. reflexivity.
      * split; [reflexivity|]. split; [reflexivity|].
        intros [H|H]; congruence.
  - intros name body body_err rest Hs Hacc. unfold Download. rewrite Hs.
    unfold writer_accepts in Hacc. run_monad. rewrite H1, H2, H3. simpl.
    destruct (w_fail dst) as [[n e]|].
    + destruct (Nat.ltb_spec n (String.length body)); [lia|].
      destruct body_err, (pe_wait env); reflexivity.
    + destruct body_err, (pe_wait env); reflexivity.
Qed.

Lemma Download_first_entry_witness :
  result (Download demo_comm "/etc/missing" {| w_fail := None |}
            (demo_proc_env TarEnd "Error: no such file"))
  = Err "Error downloading file: Error: no such file"
  /\ written (events (Download demo_comm "/etc/hostname" {| w_fail := None |}
                        (demo_proc_env
                           (TarEntry "hostname" "c1" None
                              (TarEntry "extra" "zz" None TarEnd)) "")))
     = ["c1"].
Proof.
  split.
  - refine (proj1 (proj2 (proj1 (Download_first_entry demo_comm "/etc/missing"
              {| w_fail := None |} (demo_proc_env TarEnd "Error: no such file")
              eq_refl eq_refl eq_refl) "EOF" eq_refl)) eq_refl _).
    discriminate.
  - exact (proj2 (Download_first_entry demo_comm "/etc/hostname"
              {| w_fail := None |}
              (demo_proc_env (TarEntry "hostname" "c1" None
                                (TarEntry "extra" "zz" None TarEnd)) "")
              eq_refl eq_refl eq_refl) _ _ _ _ eq_refl I).
Defined.

(** C8. Every copy command that an Upload starts is
    [podman cp - <container>:<dir>] with <dir> the directory of the
    destination path; at most one archive entry is announced, and it is named
    the base name of the destination.  When the Upload succeeds, the command
    was started once and what went through the tar writer is exactly one
    header named the base name, the bytes of the source, and the close; the
    entry is a directory entry only if the given file info is a directory. *)
Theorem Upload_single_entry (c : Communicator) (dst : string) (src : Reader)
    (fi : option FileInfo) (env : ProcEnv) (tenv : TarEnv) (fenv : TempEnv) :
  let evs := events (Upload c dst src fi env tenv fenv) in
  let localCmd := ["podman"; "cp"; "-"; ContainerID c +:+ ":" +:+ Go.Dir dst] in
  (started evs = [] \/ started evs = [localCmd])
  /\ (headers evs = []
      \/ exists size isdir, headers evs = [(Go.Base dst, size, isdir)])
  /\ (result (Upload c dst src fi env tenv fenv) = Ok tt ->
      started evs = [localCmd]
      /\ exists size isdir,
          archive evs = [EvTarHeader (Go.Base dst) size isdir;
                         EvTarBody (r_data src); EvTarClose]
          /\ size = Z.of_nat (String.length (r_data src))
          /\ (isdir = true ->
              exists f, fi = Some f /\ fi_kind f = Directory)).
Proof.
  intros evs localCmd. subst evs localCmd.
  unfold Upload, uploadReader, uploadFile, FileInfoHeader. run_monad.
  destruct fi as [f|].
  - destruct (pe_stderr_pipe env), (pe_stdin_pipe env), (pe_start env),
      (fi_kind f) eqn:Hk, (te_header tenv), (te_body tenv); simpl;
      try (split; [auto|split; [eauto|discriminate]]);
      match goal with
      | |- context [(?a <? ?b)%Z] => destruct (Z.ltb_spec a b)
      end; simpl;
      try (split; [auto|split; [eauto|discriminate]]);
      destruct (r_err src); simpl;
      try (split; [auto|split; [eauto|discriminate]]);
      match goal with
      | |- context [(?a <? ?b)%Z] => destruct (Z.ltb_spec a b)
      end; simpl;
      try (split; [auto|split; [eauto|discriminate]]);
      destruct (te_close tenv), (te_stdin_close tenv), (pe_stderr_read env),
        (pe_wait env), (FixUploadOwner (Config_of c)),
        (pe_chown env) as [[]|]; simpl;
      try (split; [auto|split; [eauto|discriminate]]);
      (split; [auto|split; [eauto|]]); intros _; (split; [reflexivity|]);
      do 2 eexists; (split; [reflexivity|]); (split; [lia|]);
      intros; try discriminate; eauto.
  - destruct (tmp_create fenv); simpl;
      [split; [auto|split; [auto|discriminate]]|].
    destruct (tmp_close fenv), (tmp_remove fenv),
      (match r_err src with Some e => Some e | None => tmp_write fenv end),
      (tmp_seek fenv), (tmp_stat fenv); simpl;
      try (split; [auto|split; [auto|discriminate]]);
      destruct (pe_stderr_pipe env), (pe_stdin_pipe env), (pe_start env),
        (te_header tenv), (te_body tenv); simpl;
      try (split; [auto|split; [eauto|discriminate]]);
      rewrite Z.ltb_irrefl; simpl;
      destruct (te_close tenv), (te_stdin_close tenv), (pe_stderr_read env),
        (pe_wait env), (FixUploadOwner (Config_of c)),
        (pe_chown env) as [[]|]; simpl;
      try (split; [auto|split; [eauto|discriminate]]);
      (split; [auto|split; [eauto|]]); intros _; (split; [reflexivity|]);
      do 2 eexists; (split; [reflexivity|]); (split; [reflexivity|]);
      discriminate.
Qed.

Lemma Upload_single_entry_witness :
  started (events (Upload demo_comm "/opt/app/run.sh"
                     {| r_data := "#!/bin/sh"; r_err := None |}
                     (Some {| fi_name := "run.sh"; fi_size := 9;
                              fi_kind := Regular |})
                     (demo_proc_env TarEnd "") demo_tar_env demo_temp_env))
  = [["podman"; "cp"; "-"; "c1:/opt/app"]]
  /\ exists size isdir,
      archive (events (Upload demo_comm "/opt/app/run.sh"
                         {| r_data := "#!/bin/sh"; r_err := None |}
                         (Some {| fi_name := "run.sh"; fi_size := 9;
                                  fi_kind := Regular |})
                         (demo_proc_env TarEnd "") demo_tar_env demo_temp_env))
      = [EvTarHeader "run.sh" size isdir; EvTarBody "#!/bin/sh"; EvTarClose]
      /\ size = 9%Z.
Proof.
  destruct (proj2 (proj2 (Upload_single_entry demo_comm "/opt/app/run.sh"
              {| r_data := "#!/bin/sh"; r_err := None |}
              (Some {| fi_name := "run.sh"; fi_size := 9; fi_kind := Regular |})
              (demo_proc_env TarEnd "") demo_tar_env demo_temp_env)) eq_refl)
    as (Hs & size & isdir & Ha & Hz & _).
  split; [exact Hs|]. exists size, isdir. split; [exact Ha | exact Hz].
Defined.

(* ===================================================================== *)
(** ** More on Start and run                                              *)
(* ===================================================================== *)

(** X1. The arguments of the exec invocation are, in this order: [exec -i],
    the user override when an execution user is configured, the
    pseudo-terminal flag when requested, the container handle, the entry
    point, and the command wrapped in parentheses. *)
Theorem podmanArgs_layout (c : Communicator) (remote : RemoteCmd) :
  podmanArgs c remote
  = ["exec"; "-i"]
    ++ (if nonempty (ExecUser (Config_of c))
        then ["-u"; ExecUser (Config_of c)] else [])
    ++ (if Pty (Config_of c) then ["-t"] else [])
    ++ [ContainerID c] ++ EntryPoint c
    ++ ["(" +:+ Command remote +:+ ")"].
Proof.
  unfold podmanArgs, nonempty.
  destruct (Pty (Config_of c)), (String.eqb (ExecUser (Config_of c)) "");
    reflexivity.
Qed.

Lemma published_run_once c cmd remote env :
  exists status, published (events (run c cmd remote env)) = [status].
Proof.
  destruct (ee_start env) as [err|] eqn:E.
  - exists 254%Z. eapply published_run_failed; eauto.
  - eexists. apply published_run_spawned; exact E.
Qed.

(** X2. A call of [Start] ends in exactly one of two ways: a pipe could not
    be set up, the error of the first failing pipe is returned and no
    goroutine is launched, so that no exit status is ever published; or the
    three pipes exist, [Start] returns nil, and the goroutine it launches
    publishes exactly one exit status. *)
Theorem Start_error_or_status (c : Communicator) (remote : RemoteCmd)
    (env : ExecEnv) :
  (exists err,
      Start c remote env = (fail err, None)
      /\ (ee_stdin_pipe env = Some err
          \/ ee_stdin_pipe env = None
             /\ (ee_stderr_pipe env = Some err
                 \/ ee_stderr_pipe env = None /\ ee_stdout_pipe env = Some err)))
  \/ (exists status,
        Start c remote env
        = (ret tt, Some (run c ("podman" :: podmanArgs c remote) remote env))
        /\ published (events (run c ("podman" :: podmanArgs c remote) remote env))
           = [status]
        /\ ee_stdin_pipe env = None /\ ee_stderr_pipe env = None
        /\ ee_stdout_pipe env = None).
Proof.
  unfold Start.
  destruct (ee_stdin_pipe env) as [e|]; [left; eauto|].
  destruct (ee_stderr_pipe env) as [e|]; [left; eauto 6|].
  destruct (ee_stdout_pipe env) as [e|]; [left; eauto 8|].
  right.
  destruct (published_run_once c ("podman" :: podmanArgs c remote) remote env)
    as (status & H).
  exists status. auto.
Qed.



(* ===================================================================== *)
(** ** Commands and transfers sharing one Communicator                    *)
(* ===================================================================== *)

Lemma comm_op_shape c m :
  comm_op c m -> waiting (events m) \/ lockfree (events m) = true.
Proof.
  intros [(cmd & remote & env & ->) | Ht].
  - left. destruct (run_shape c cmd remote env) as (body & E & Hb & _).
    exists body. auto.
  - right. eapply lockfree_transfer; eauto.
Qed.

Lemma comm_ops_Inv c ops sched :
  (forall m, m ∈ ops -> comm_op c m) -> Inv (exec sched (init ops)).
Proof.
  intros H. apply Inv_exec, Inv_init. intros m Hm.
  eapply comm_op_shape; eauto.
Qed.

Lemma exec_lookup_script ops sched i t :
  tasks (exec sched (init ops)) !! i = Some t ->
  exists m, ops !! i = Some m /\ script_of t = events m.
Proof.
  intros Hi.
  assert (H : (script_of <$> tasks (exec sched (init ops))) !! i
              = Some (script_of t))
    by (rewrite list_lookup_fmap, Hi; reflexivity).
  rewrite exec_script in H. simpl in H. rewrite <- list_fmap_compose in H.
  apply list_lookup_fmap_Some in H as (m & E & Hm). eauto.
Qed.


Lemma command_running_holds c ops sched i t m :
  (forall m, m ∈ ops -> comm_op c m) ->
  ops !! i = Some m -> command_op c m ->
  tasks (exec sched (init ops)) !! i = Some t ->
  running t = true ->
  holder (exec sched (init ops)) = Some i.
Proof.
  intros Hops Hm (cmd & remote & env & ->) Hi Hr.
  destruct (exec_lookup_script _ _ _ _ Hi) as (m' & Hm' & E).
  rewrite Hm in Hm'. injection Hm' as <-.
  destruct (run_shape c cmd remote env) as (body & Eb & Hb & _).
  rewrite Eb in E.
  destruct (comm_ops_Inv c ops sched Hops) as [_ Hhold].
  apply (Hhold _ _ Hi). eapply inside_critical; eauto.
Qed.

(** X4. Remote commands stay serialized when transfers run on the same
    Communicator at the same time: among any mix of command goroutines and
    Upload, UploadDir and Download calls, however scheduled, a command that
    has started and not finished holds the lock, and two commands are never
    in flight together. *)
Theorem commands_serialized_among_transfers (c : Communicator)
    (ops : list (M unit)) (sched : list nat) (i j : nat) (ti tj : Task)
    (mi mj : M unit) :
  (forall m, m ∈ ops -> comm_op c m) ->
  ops !! i = Some mi -> command_op c mi ->
  ops !! j = Some mj -> command_op c mj ->
  tasks (exec sched (init ops)) !! i = Some ti ->
  tasks (exec sched (init ops)) !! j = Some tj ->
  (running ti = true -> holder (exec sched (init ops)) = Some i)
  /\ (cmd_in_flight ti = true -> cmd_in_flight tj = true -> i = j).
Proof.
  intros Hops Hmi Hci Hmj Hcj Hi Hj. split.
  - eapply command_running_holds; eauto.
  - intros Fi Fj.
    assert (Ri : running ti = true).
    { destruct Hci as (cmd & remote & env & ->).
      destruct (exec_lookup_script _ _ _ _ Hi) as (m' & Hm' & E).
      rewrite Hmi in Hm'. injection Hm' as <-.
      destruct (run_shape c cmd remote env) as (body & Eb & _ & Hw).
      rewrite Eb in E. eapply in_flight_running; eauto. }
    assert (Rj : running tj = true).
    { destruct Hcj as (cmd & remote & env & ->).
      destruct (exec_lookup_script _ _ _ _ Hj) as (m' & Hm' & E).
      rewrite Hmj in Hm'. injection Hm' as <-.
      destruct (run_shape c cmd remote env) as (body & Eb & _ & Hw).
      rewrite Eb in E. eapply in_flight_running; eauto. }
    pose proof (command_running_holds c ops sched i ti mi Hops Hmi Hci Hi Ri).
    pose proof (command_running_holds c ops sched j tj mj Hops Hmj Hcj Hj Rj).
    congruence.
Qed.

Lemma demo_mixed_ops : forall m, m ∈ demo_mixed -> comm_op demo_comm m.
Proof.
  intros m Hm. unfold demo_mixed in Hm. simpl in Hm.
  apply elem_of_cons in Hm as [->|Hm].
  - left. unfold command_op. eauto.
  - apply elem_of_cons in Hm as [->|Hm].
    + right. constructor.
    + apply elem_of_nil in Hm. destruct Hm.
Defined.

Lemma commands_serialized_among_transfers_witness :
  holder (exec [0; 0; 0; 1; 1] (init demo_mixed)) = Some 0.
Proof.
  refine (proj1 (commands_serialized_among_transfers demo_comm demo_mixed
                   [0; 0; 0; 1; 1] 0 0 _ _ _ _ demo_mixed_ops
                   eq_refl _ eq_refl _ eq_refl eq_refl) eq_refl);
    unfold command_op; eauto.
Defined.





Lemma remaining_pending (l : list Task) :
  sum_list (map (fun t => length (todo t)) l) <> 0 ->
  exists i t e rest, l !! i = Some t /\ todo t = e :: rest.
Proof.
  induction l as [|[d td] l IH]; simpl; intros H; [congruence|].
  destruct td as [|e rest].
  - destruct (IH H) as (i & t & e & rest & Hi & Ht).
    exists (S i), t, e, rest. auto.
  - exists 0, {| done := d; todo := e :: rest |}, e, rest. auto.
Qed.


(** A state with work left has a task that can move. *)
Lemma progress s :
  Inv s -> Inv_holder s -> remaining s <> 0 ->
  exists i s', step i s = Some s'.
Proof.
  intros [Hshape Hhold] Hh Hrem. destruct (holder s) as [k|] eqn:Hk.
  - destruct (Hh k Hk) as ([d td] & Ht & body & E & Hb). simpl in E.
    exists k. unfold step. rewrite Ht, ?Hk. subst td.
    destruct body as [|e body]; simpl; [eauto|].
    rewrite lockfree_cons in Hb. apply andb_true_iff in Hb as [He _].
    destruct e; try discriminate He; eauto.
  - destruct (remaining_pending _ Hrem) as (i & [d td] & e & rest & Hi & Ht).
    simpl in Ht. subst td. exists i. unfold step. rewrite Hi, ?Hk.
    destruct e; eauto.
    exfalso. pose proof (Hshape _ _ Hi) as Hsh. simpl in Hsh.
    assert (Hc : critical (EvUnlock :: rest)).
    { destruct Hsh as [(b & E & _) | [Hc | Hf]];
        [discriminate | exact Hc | discriminate]. }
    pose proof (Hhold _ _ Hi Hc). congruence.
Qed.




(* ===================================================================== *)
(** ** More on the transfers                                              *)
(* ===================================================================== *)

Lemma evfree_app P l1 l2 : evfree P (l1 ++ l2) = evfree P l1 && evfree P l2.
Proof. apply forallb_app. Qed.

Lemma evfree_bind {A B} P (m : M A) (k : A -> M B) :
  evfree P (events m) = true ->
  (forall a, evfree P (events (k a)) = true) ->
  evfree P (events (bind m k)) = true.
Proof.
  intros Hm Hk. rewrite events_bind, evfree_app, Hm. simpl.
  destruct (result m); auto.
Qed.

Lemma evfree_check P err wrap : evfree P (events (check err wrap)) = true.
Proof. destruct err; reflexivity. Qed.

Lemma evfree_wrap_err {A} P (m : M A) wrap :
  evfree P (events m) = true -> evfree P (events (wrap_err m wrap)) = true.
Proof. destruct m as [evs [a|e|p]]; auto. Qed.

Create HintDb evfree.
#[local] Hint Resolve evfree_check : evfree.

Ltac evfree_tac :=
  repeat first
    [ reflexivity
    | solve [ auto with evfree nocore ]
    | apply evfree_wrap_err
    | apply evfree_bind; [ | intros ]
    | progress (cbv zeta)
    | match goal with
      | |- evfree _ (events (match ?x with _ => _ end)) = true => destruct x
      | |- evfree _ (match ?x with _ => _ end) = true => destruct x
      end ].

Lemma cleanup_free_fixDestinationOwner c dst env :
  evfree is_temp_cleanup (events (fixDestinationOwner c dst env)) = true.
Proof. unfold fixDestinationOwner. evfree_tac. Qed.
#[local] Hint Resolve cleanup_free_fixDestinationOwner : evfree.

Lemma cleanup_free_copy_to_archive size src tenv :
  evfree is_temp_cleanup (events (copy_to_archive size src tenv)) = true.
Proof. unfold copy_to_archive. evfree_tac. Qed.
#[local] Hint Resolve cleanup_free_copy_to_archive : evfree.

Lemma cleanup_free_close_archive size n tenv :
  evfree is_temp_cleanup (events (close_archive size n tenv)) = true.
Proof. unfold close_archive. evfree_tac. Qed.
#[local] Hint Resolve cleanup_free_close_archive : evfree.

Lemma cleanup_free_uploadFile c dst src fi env tenv :
  evfree is_temp_cleanup (events (uploadFile c dst src fi env tenv)) = true.
Proof. unfold uploadFile. evfree_tac. Qed.
#[local] Hint Resolve cleanup_free_uploadFile : evfree.


Lemma result_with_defer {A} (m : M A) d : result (with_defer m d) = result m.
Proof. reflexivity. Qed.


(** X7. A pure-stream upload whose temporary file could be written is the
    file upload of the same bytes, announced with exactly their number as
    size: it returns what that file upload returns and performs the same
    events, between the writing of the temporary file and its close. *)
Theorem Upload_stream_delegates (c : Communicator) (dst : string)
    (data : string) (env : ProcEnv) (tenv : TarEnv) (fenv : TempEnv) :
  tmp_create fenv = None -> tmp_write fenv = None ->
  tmp_seek fenv = None -> tmp_stat fenv = None ->
  let src := {| r_data := data; r_err := None |} in
  let fi := {| fi_name := tmp_name fenv;
               fi_size := Z.of_nat (String.length data);
               fi_kind := Regular |} in
  result (Upload c dst src None env tenv fenv)
  = result (Upload c dst src (Some fi) env tenv fenv)
  /\ exists tail,
      events (Upload c dst src None env tenv fenv)
      = [EvCreateTemp (HostDir c); EvWriteTemp data]
        ++ events (Upload c dst src (Some fi) env tenv fenv)
        ++ EvCloseTemp :: tail.
Proof.
  intros H1 H2 H3 H4 src fi. subst src fi. unfold Upload, uploadReader.
  rewrite H1, H3, H4. cbn [r_err r_data]. rewrite H2.
  generalize (uploadFile c dst {| r_data := data; r_err := None |}
                {| fi_name := tmp_name fenv;
                   fi_size := Z.of_nat (String.length data);
                   fi_kind := Regular |} env tenv).
  intros [evs r]. unfold with_defer, check, emit, ret, bind, events, result.
  simpl. split; [destruct r; reflexivity|].
  eexists. destruct r; simpl; rewrite <- ?app_assoc; reflexivity.
Qed.

Lemma Upload_stream_delegates_witness :
  result (Upload demo_comm "/opt/app/run.sh"
            {| r_data := "#!/bin/sh"; r_err := None |} None
            (demo_proc_env TarEnd "") demo_tar_env demo_temp_env)
  = result (Upload demo_comm "/opt/app/run.sh"
              {| r_data := "#!/bin/sh"; r_err := None |}
              (Some {| fi_name := "/tmp/packer/upload1"; fi_size := 9;
                       fi_kind := Regular |})
              (demo_proc_env TarEnd "") demo_tar_env demo_temp_env).
Proof.
  exact (proj1 (Upload_stream_delegates demo_comm "/opt/app/run.sh" "#!/bin/sh"
                  (demo_proc_env TarEnd "") demo_tar_env demo_temp_env
                  eq_refl eq_refl eq_refl eq_refl)).
Defined.

Ltac leaf :=
  solve [ repeat split; intros; try discriminate; try reflexivity;
          try (left; reflexivity); try (right; reflexivity); auto ].

Ltac ds x := destruct x; simpl; try leaf.

Ltac ds_ltb :=
  match goal with
  | |- context [(?a <? ?b)%Z] => destruct (Z.ltb_spec a b); simpl; try leaf
  end.

(** X8. The ownership of an uploaded path is corrected by at most one
    command, [chown -R <owner> <dst>] run as root inside the container,
    <owner> being the container user or root when there is none.  It is
    run only after the copy process was waited for and succeeded, never
    when [fix_upload_owner] is off; and with [fix_upload_owner] on, an
    upload succeeds only if this command ran and succeeded. *)
Theorem upload_chown (c : Communicator) (dst : string) (env : ProcEnv)
    (op : M unit) :
  upload_op c dst env op ->
  (runs (events op) = [] \/ runs (events op) = [chown_argv c dst])
  /\ (FixUploadOwner (Config_of c) = false -> runs (events op) = [])
  /\ (runs (events op) = [chown_argv c dst] ->
      pe_wait env = None /\ existsb is_wait (events op) = true)
  /\ (result op = Ok tt -> FixUploadOwner (Config_of c) = true ->
      runs (events op) = [chown_argv c dst] /\ pe_chown env = None).
Proof.
  intros [src fi tenv fenv | src exclude].
  - unfold Upload, uploadReader, uploadFile, FileInfoHeader, chown_argv,
      nonempty. run_monad.
    destruct fi as [f|].
    + ds (pe_stderr_pipe env). ds (pe_stdin_pipe env). ds (pe_start env).
      ds (fi_kind f); ds (te_header tenv); ds (te_body tenv); ds_ltb;
        ds (r_err src); ds_ltb; ds (te_close tenv); ds (te_stdin_close tenv);
        ds (pe_stderr_read env); ds (pe_wait env);
        ds (FixUploadOwner (Config_of c));
        ds (String.eqb (ContainerUser c) ""); ds (pe_chown env);
        destruct p; simpl; leaf.
    + ds (tmp_create fenv).
      destruct (tmp_close fenv), (tmp_remove fenv); simpl;
        ds (match r_err src with Some e => Some e | None => tmp_write fenv end);
        ds (tmp_seek fenv); ds (tmp_stat fenv);
        ds (pe_stderr_pipe env); ds (pe_stdin_pipe env); ds (pe_start env);
        ds (te_header tenv); ds (te_body tenv);
        rewrite Z.ltb_irrefl; simpl;
        ds (te_close tenv); ds (te_stdin_close tenv);
        ds (pe_stderr_read env); ds (pe_wait env);
        ds (FixUploadOwner (Config_of c));
        ds (String.eqb (ContainerUser c) ""); ds (pe_chown env);
        destruct p; simpl; leaf.
  - unfold UploadDir, chown_argv, nonempty.
    destruct (Go.last_byte src) as [b|]; [|simpl; leaf].
    run_monad.
    ds (pe_stderr_pipe env). ds (pe_start env). ds (pe_stderr_read env).
    ds (pe_wait env). ds (FixUploadOwner (Config_of c)).
    ds (String.eqb (ContainerUser c) ""); ds (pe_chown env);
      destruct p; simpl; leaf.
Qed.

Lemma upload_chown_witness :
  runs (events (UploadDir demo_comm "/opt/app" "/home/me/app/" []
                  (demo_proc_env TarEnd "")))
  = [["podman"; "exec"; "--user"; "root"; "c1"; "/bin/sh"; "-c";
      "chown -R root /opt/app"]].
Proof.
  exact (proj1 (proj2 (proj2 (proj2
           (upload_chown demo_comm "/opt/app" (demo_proc_env TarEnd "") _
              (upload_dir demo_comm "/opt/app" (demo_proc_env TarEnd "")
                 "/home/me/app/" []))))
           eq_refl eq_refl)).
Defined.

Ltac split_at_close l acc :=
  lazymatch l with
  | EvTarClose :: EvStdinClose :: EvReadStderr _ :: EvWait _ :: ?r =>
      exists (rev acc), r
  | ?x :: ?r => split_at_close r (x :: acc)
  end.

Ltac close_leaf :=
  solve [ intros H; first
            [ discriminate H
            | match goal with
              | |- exists l1 l2, ?l = _ =>
                  split_at_close l (@nil Event); reflexivity
              end ] ].

Ltac dc x := destruct x; simpl; try close_leaf.

(** X9. An upload waits for its copy process only after the archive was
    closed, the stdin pipe of the process was closed and its stderr was read
    to the end, in this order and with nothing in between: the process sees
    the end of its input before anyone waits for it. *)
Theorem Upload_wait_after_close (c : Communicator) (dst : string)
    (src : Reader) (fi : option FileInfo) (env : ProcEnv) (tenv : TarEnv)
    (fenv : TempEnv) :
  existsb is_wait (events (Upload c dst src fi env tenv fenv)) = true ->
  exists l1 l2,
    events (Upload c dst src fi env tenv fenv)
    = l1 ++ [EvTarClose; EvStdinClose; EvReadStderr (pe_stderr env);
             EvWait ["podman"; "cp"; "-"; ContainerID c +:+ ":" +:+ Go.Dir dst]]
         ++ l2.
Proof.
  unfold Upload, uploadReader, uploadFile, FileInfoHeader. run_monad.
  destruct fi as [f|].
  - dc (pe_stderr_pipe env). dc (pe_stdin_pipe env). dc (pe_start env).
    dc (fi_kind f); dc (te_header tenv); dc (te_body tenv);
      (match goal with
       | |- context [(?a <? ?b)%Z] => dc (a <? b)%Z
       end);
      dc (r_err src);
      (match goal with
       | |- context [(?a <? ?b)%Z] => dc (a <? b)%Z
       end);
      dc (te_close tenv); dc (te_stdin_close tenv); dc (pe_stderr_read env);
      dc (pe_wait env); dc (FixUploadOwner (Config_of c)); dc (pe_chown env);
      destruct p; simpl; close_leaf.
  - dc (tmp_create fenv).
    destruct (tmp_close fenv), (tmp_remove fenv); simpl;
      dc (match r_err src with Some e => Some e | None => tmp_write fenv end);
      dc (tmp_seek fenv); dc (tmp_stat fenv);
      dc (pe_stderr_pipe env); dc (pe_stdin_pipe env); dc (pe_start env);
      dc (te_header tenv); dc (te_body tenv);
      rewrite Z.ltb_irrefl; simpl;
      dc (te_close tenv); dc (te_stdin_close tenv); dc (pe_stderr_read env);
      dc (pe_wait env); dc (FixUploadOwner (Config_of c)); dc (pe_chown env);
      destruct p; simpl; close_leaf.
Qed.

Lemma Upload_wait_after_close_witness :
  exists l1 l2,
    events (Upload demo_comm "/opt/app/run.sh"
              {| r_data := "#!/bin/sh"; r_err := None |} None
              (demo_proc_env TarEnd "") demo_tar_env demo_temp_env)
    = l1 ++ [EvTarClose; EvStdinClose; EvReadStderr "";
             EvWait ["podman"; "cp"; "-"; "c1:/opt/app"]] ++ l2.
Proof.
  exact (Upload_wait_after_close demo_comm "/opt/app/run.sh"
           {| r_data := "#!/bin/sh"; r_err := None |} None
           (demo_proc_env TarEnd "") demo_tar_env demo_temp_env eq_refl).
Defined.

(** X10. Download returns nil only if the two pipes were set up, the copy
    process started, a first entry was read from its output, the whole body
    of that entry was read and written to the destination, and the process
    was then waited for, as the last action, and had exited successfully. *)
Theorem Download_ok (c : Communicator) (src : string) (dst : Writer)
    (env : ProcEnv) :
  result (Download c src dst env) = Ok tt ->
  exists name body rest l,
    pe_stdout env = TarEntry name body None rest
    /\ writer_accepts dst body
    /\ written (events (Download c src dst env)) = [body]
    /\ events (Download c src dst env)
       = l ++ [EvWait ["podman"; "cp"; ContainerID c +:+ ":" +:+ src; "-"]]
    /\ pe_stdout_pipe env = None /\ pe_stderr_pipe env = None
    /\ pe_start env = None /\ pe_wait env = None.
Proof.
  unfold Download, writer_accepts. run_monad.
  destruct (pe_stdout_pipe env); [discriminate|].
  destruct (pe_stderr_pipe env); [discriminate|].
  destruct (pe_start env); [discriminate|]. simpl.
  destruct (pe_stdout env) as [|e|name body berr rest]; simpl.
  - destruct (pe_stderr_read env); simpl; [discriminate|].
    destruct (negb _); discriminate.
  - destruct (pe_stderr_read env); simpl; [discriminate|].
    destruct (negb _); discriminate.
  - destruct (w_fail dst) as [[n e]|].
    + destruct (Nat.ltb_spec n (String.length body)); simpl; [discriminate|].
      destruct berr; simpl; [discriminate|].
      destruct (pe_wait env); simpl; [discriminate|].
      intros _.
      match goal with
      | |- context [?evs = _ ++ [EvWait _]] =>
          exists name, body, rest, (removelast evs)
      end.
      split; [reflexivity|]. split; [lia|]. split; [reflexivity|].
      split; [reflexivity|auto].
    + destruct berr; simpl; [discriminate|].
      destruct (pe_wait env); simpl; [discriminate|].
      intros _.
      match goal with
      | |- context [?evs = _ ++ [EvWait _]] =>
          exists name, body, rest, (removelast evs)
      end.
      split; [reflexivity|]. split; [exact I|]. split; [reflexivity|].
      split; [reflexivity|auto].
Qed.

Lemma Download_ok_witness :
  exists name body rest l,
    demo_proc_env (TarEntry "hostname" "c1" None TarEnd) "" 
    = demo_proc_env (TarEntry name body None rest) ""
    /\ written (events (Download demo_comm "/etc/hostname" {| w_fail := None |}
                          (demo_proc_env (TarEntry "hostname" "c1" None TarEnd) "")))
       = [body]
    /\ events (Download demo_comm "/etc/hostname" {| w_fail := None |}
                 (demo_proc_env (TarEntry "hostname" "c1" None TarEnd) ""))
       = l ++ [EvWait ["podman"; "cp"; "c1:/etc/hostname"; "-"]].
Proof.
  destruct (Download_ok demo_comm "/etc/hostname" {| w_fail := None |}
              (demo_proc_env (TarEntry "hostname" "c1" None TarEnd) "") eq_refl)
    as (name & body & rest & l & Hs & _ & Hw & He & _).
  exists name, body, rest, l. split; [|split; [exact Hw | exact He]].
  simpl in Hs. rewrite Hs. reflexivity.
Defined.

(** X11. Once the copy process of a Download is started, it is waited for
    if and only if a first entry was read from its output and the whole body
    of that entry was read and written; when the header cannot be read or
    the copy of the body fails, Download returns without waiting for the
    process. *)
Theorem Download_waits_iff (c : Communicator) (src : string) (dst : Writer)
    (env : ProcEnv) :
  pe_stdout_pipe env = None ->
  pe_stderr_pipe env = None ->
  pe_start env = None ->
  started (events (Download c src dst env))
  = [["podman"; "cp"; ContainerID c +:+ ":" +:+ src; "-"]]
  /\ (existsb is_wait (events (Download c src dst env)) = true
      <-> exists name body rest,
            pe_stdout env = TarEntry name body None rest
            /\ writer_accepts dst body).
Proof.
  intros H1 H2 H3. unfold Download, writer_accepts. run_monad.
  rewrite H1, H2, H3. simpl.
  destruct (pe_stdout env) as [|e|name body berr rest]; simpl.
  - destruct (pe_stderr_read env); simpl;
      [|destruct (negb _)]; (split; [reflexivity|]);
      (split; [discriminate | intros (? & ? & ? & ? & _); discriminate]).
  - destruct (pe_stderr_read env); simpl;
      [|destruct (negb _)]; (split; [reflexivity|]);
      (split; [discriminate | intros (? & ? & ? & ? & _); discriminate]).
  - destruct (w_fail dst) as [[n e]|].
    + destruct (Nat.ltb_spec n (String.length body)); simpl.
      * split; [reflexivity|].
        split; [discriminate|]. intros (? & ? & ? & [= _ <- _ _] & Hle). lia.
      * destruct berr; simpl.
        -- split; [reflexivity|].
           split; [discriminate | intros (? & ? & ? & ? & _); discriminate].
        -- destruct (pe_wait env); simpl; (split; [reflexivity|]);
             (split; [intros _; eauto 6 | reflexivity]).
    + destruct berr; simpl.
      * split; [reflexivity|].
        split; [discriminate | intros (? & ? & ? & ? & _); discriminate].
      * destruct (pe_wait env); simpl; (split; [reflexivity|]);
          (split; [intros _; eauto 6 | reflexivity]).
Qed.

Lemma Download_waits_iff_witness :
  existsb is_wait (events (Download demo_comm "/etc/missing" {| w_fail := None |}
                             (demo_proc_env TarEnd "Error: no such file")))
  = false.
Proof.
  destruct (Download_waits_iff demo_comm "/etc/missing" {| w_fail := None |}
              (demo_proc_env TarEnd "Error: no such file")
              eq_refl eq_refl eq_refl) as [_ [H _]].
  destruct (existsb is_wait _) eqn:E; [|reflexivity].
  destruct (H eq_refl) as (? & ? & ? & Hs & _). discriminate Hs.
Defined.

(* ===================================================================== *)
(** ** More on the Pull and Run steps                                     *)
(* ===================================================================== *)

(** X12. With pulling disabled, the Pull step continues at once: it does
    not look up the driver (which may be absent from the bag), calls
    nothing, tells the UI nothing and leaves the bag as it is, whatever the
    login settings are. *)
Theorem StepPull_disabled (w : World) (config : Config) :
  bag w !! "ui" = Some VUi ->
  bag w !! "config" = Some (VConfig config) ->
  Pull config = false ->
  exists w',
    StepPull.Run w = Returned ActionContinue w'
    /\ bag w' = bag w /\ calls w' = calls w /\ ui_out w' = ui_out w.
Proof.
  intros Hui Hcfg Hp. unfold StepPull.Run. rewrite Hui, Hcfg, Hp. simpl.
  eexists. split; [reflexivity|]. auto.
Qed.

(** X13. With pulling enabled and no login configured, the Pull step makes
    exactly one driver call, the pull of the configured image, and never
    logs in or out; it continues with the bag unchanged when the pull
    succeeds, and halts with the pull error recorded under ["error"] and
    reported to the UI when it fails. *)
Theorem StepPull_no_login (w : World) (config : Config) (driver : Driver) :
  bag w !! "ui" = Some VUi ->
  bag w !! "config" = Some (VConfig config) ->
  bag w !! "driver" = Some (VDriver driver) ->
  Pull config = true ->
  Login config = false ->
  exists a w',
    StepPull.Run w = Returned a w'
    /\ calls w' = calls w ++ [CallPull (Image config)]
    /\ match drv_Pull driver (calls w) (Image config) with
       | None => a = ActionContinue /\ bag w' = bag w
       | Some err =>
           a = ActionHalt
           /\ bag w' = <["error" := VError ("Error pulling Podman image: " +:+ err)]>
                         (bag w)
           /\ last (ui_out w')
              = Some (UiError ("Error pulling Podman image: " +:+ err))
       end.
Proof.
  intros Hui Hcfg Hdrv Hp Hl. unfold StepPull.Run.
  rewrite Hui, Hcfg, Hp. simpl. rewrite Hdrv, Hl.
  unfold StepPull.pull, halt. simpl.
  destruct (drv_Pull driver (calls w) (Image config)) as [err|];
    do 2 eexists; (split; [reflexivity|]); simpl; (split; [reflexivity|]).
  - split; [reflexivity|]. split; [reflexivity|]. apply last_snoc.
  - auto.
Qed.

(** X14. After a successful login, what the Pull step leaves in the bag
    depends on the pull alone: a failing logout is reported to the UI but is
    never recorded under ["error"] and never changes the action, and it does
    not replace the error of a failed pull. *)
Theorem StepPull_logout_error_not_recorded (w : World) (config : Config)
    (driver : Driver) :
  bag w !! "ui" = Some VUi ->
  bag w !! "config" = Some (VConfig config) ->
  bag w !! "driver" = Some (VDriver driver) ->
  Pull config = true ->
  Login config = true ->
  drv_Login driver (calls w) (LoginServer config) (LoginUsername config)
    (LoginPassword config) = None ->
  let login := CallLogin (LoginServer config) (LoginUsername config)
                 (LoginPassword config) in
  exists a w',
    StepPull.Run w = Returned a w'
    /\ match drv_Pull driver (calls w ++ [login]) (Image config) with
       | None => a = ActionContinue /\ bag w' = bag w
       | Some err =>
           a = ActionHalt
           /\ bag w' = <["error" := VError ("Error pulling Podman image: " +:+ err)]>
                         (bag w)
       end
    /\ forall err,
         drv_Logout driver (calls w ++ [login; CallPull (Image config)])
           (LoginServer config) = Some err ->
         last (ui_out w') = Some (UiError ("Error logging out: " +:+ err)).
Proof.
  intros Hui Hcfg Hdrv Hp Hl HL login. unfold StepPull.Run.
  rewrite Hui, Hcfg, Hp. simpl. rewrite Hdrv, Hl, HL. subst login.
  unfold StepPull.pull, StepPull.deferred, StepPull.logout, halt. simpl.
  destruct (drv_Pull driver _ (Image config)) as [perr|]; simpl;
    rewrite <- !app_assoc; simpl;
    destruct (drv_Logout driver _ (LoginServer config)) as [lerr|]; simpl;
    do 2 eexists; (split; [reflexivity|]); simpl; (split; [auto|]);
    intros err [= <-] || (intros err; discriminate);
    apply last_snoc.
Qed.

Lemma StepPull_logout_error_not_recorded_witness :
  exists w',
    StepPull.Run (demo_world demo_driver_logout_fails)
    = Returned ActionContinue w'
    /\ bag w' !! "error" = None
    /\ last (ui_out w') = Some (UiError "Error logging out: not logged in").
Proof.
  destruct (StepPull_logout_error_not_recorded
              (demo_world demo_driver_logout_fails) demo_config
              demo_driver_logout_fails
              eq_refl eq_refl eq_refl eq_refl eq_refl eq_refl)
    as (a & w' & HR & [Ha Hb] & Hu).
  exists w'. subst a. split; [exact HR|]. split.
  - rewrite Hb. reflexivity.
  - apply Hu. reflexivity.
Defined.

Lemma StepPull_disabled_witness :
  exists w',
    StepPull.Run (demo_world_with (with_Pull false demo_config) None)
    = Returned ActionContinue w'
    /\ calls w' = [].
Proof.
  destruct (StepPull_disabled
              (demo_world_with (with_Pull false demo_config) None)
              (with_Pull false demo_config) eq_refl eq_refl eq_refl)
    as (w' & HR & _ & Hc & _).
  exists w'. auto.
Defined.

Lemma StepPull_no_login_witness :
  exists a w',
    StepPull.Run (demo_world_with demo_config_no_login
                    (Some (demo_driver None None)))
    = Returned a w'
    /\ calls w' = [CallPull "alpine"].
Proof.
  destruct (StepPull_no_login
              (demo_world_with demo_config_no_login
                 (Some (demo_driver None None)))
              demo_config_no_login (demo_driver None None)
              eq_refl eq_refl eq_refl eq_refl eq_refl)
    as (a & w' & HR & Hc & _).
  exists a, w'. auto.
Defined.

(** X15. A bag without a configuration of the right type makes the Pull
    step and the Run step halt, not panic: each records the same error under
    ["error"], reports it to the UI, calls the driver for nothing, and the
    Run step keeps its handle as it was. *)
Theorem steps_halt_without_config (s : StepRun.t) (w : World) :
  bag w !! "ui" = Some VUi ->
  (forall config, bag w !! "config" <> Some (VConfig config)) ->
  exists w',
    StepPull.Run w = Returned ActionHalt w'
    /\ StepRun.Run s w = Returned (ActionHalt, s) w'
    /\ calls w' = calls w
    /\ bag w' = <["error" := VError "error encountered obtaining podman config"]>
                  (bag w)
    /\ ui_out w' = ui_out w ++ [UiError "error encountered obtaining podman config"].
Proof.
  intros Hui Hcfg. unfold StepPull.Run, StepRun.Run, halt. rewrite Hui.
  destruct (bag w !! "config") as [[| config | | |]|] eqn:E;
    try (eexists; repeat split; reflexivity).
  destruct (Hcfg config eq_refl).
Qed.

Lemma steps_halt_without_config_witness :
  exists w',
    StepRun.Run {| StepRun.containerId := "" |} demo_world_no_config
    = Returned (ActionHalt, {| StepRun.containerId := "" |}) w'
    /\ calls w' = [].
Proof.
  destruct (steps_halt_without_config {| StepRun.containerId := "" |}
              demo_world_no_config eq_refl)
    as (w' & _ & HR & Hc & _).
  - intros config. discriminate.
  - exists w'. auto.
Defined.

(** X16. The Run step asks the driver exactly once to start a container.
    The configuration it passes copies image, run command, devices,
    capabilities, tmpfs mounts, privilege and systemd mode from the
    builder's configuration; its volumes are the configured ones with the
    host scratch directory mapped to the container directory, which replaces
    a configured volume on the same host path and leaves the others.  When
    the driver reports an error, the step halts, records the error and keeps
    its handle; otherwise it continues with the returned id as its handle
    and under both ["container_id"] and ["instance_id"]. *)
Theorem StepRun_Run_start (s : StepRun.t) (w : World) (config : Config)
    (tempDir : string) (driver : Driver) :
  bag w !! "ui" = Some VUi ->
  bag w !! "config" = Some (VConfig config) ->
  bag w !! "temp_dir" = Some (VString tempDir) ->
  bag w !! "driver" = Some (VDriver driver) ->
  exists runConfig a s' w',
    StepRun.Run s w = Returned (a, s') w'
    /\ calls w' = calls w ++ [CallStartContainer runConfig]
    /\ cc_Volumes runConfig !! tempDir = Some (ContainerDir_cfg config)
    /\ (forall host, host <> tempDir ->
                     cc_Volumes runConfig !! host = Volumes config !! host)
    /\ (cc_Image runConfig, cc_RunCommand runConfig, cc_Device runConfig,
        cc_CapAdd runConfig, cc_CapDrop runConfig, cc_TmpFs runConfig,
        cc_Privileged runConfig, cc_Systemd runConfig)
       = (Image config, RunCommand config, Device config, CapAdd config,
          CapDrop config, TmpFs config, Privileged config, Systemd config)
    /\ match drv_StartContainer driver (calls w) runConfig with
       | (id, None) =>
           a = ActionContinue /\ StepRun.containerId s' = id
           /\ bag w' = <["instance_id" := VString id]>
                         (<["container_id" := VString id]> (bag w))
       | (_, Some err) =>
           a = ActionHalt /\ s' = s
           /\ bag w' = <["error" := VError ("Error running container: " +:+ err)]>
                         (bag w)
       end.
Proof.
  intros Hui Hcfg Htmp Hdrv. unfold StepRun.Run, halt.
  rewrite Hui, Hcfg, Htmp, Hdrv. simpl.
  match goal with
  | |- context [drv_StartContainer driver (calls w) ?rc] => exists rc
  end.
  destruct (drv_StartContainer driver (calls w) _) as [id [err|]] eqn:E;
    do 3 eexists; (split; [reflexivity|]); simpl;
    (split; [reflexivity|]);
    (split; [apply lookup_insert_eq|]);
    (split; [intros host Hne; apply lookup_insert_ne; congruence|]);
    (split; [reflexivity|]); auto.
Qed.

Lemma StepRun_Run_start_witness :
  exists runConfig s' w',
    StepRun.Run {| StepRun.containerId := "" |}
      (demo_world_with demo_config_no_login (Some (demo_driver None None)))
    = Returned (ActionContinue, s') w'
    /\ calls w' = [CallStartContainer runConfig]
    /\ cc_Volumes runConfig !! "/tmp/packer" = Some "/packer-files"
    /\ cc_Volumes runConfig !! "/data" = Some "/mnt/data"
    /\ StepRun.containerId s' = "c1".
Proof.
  destruct (StepRun_Run_start {| StepRun.containerId := "" |}
              (demo_world_with demo_config_no_login
                 (Some (demo_driver None None)))
              demo_config_no_login "/tmp/packer" (demo_driver None None)
              eq_refl eq_refl eq_refl eq_refl)
    as (rc & a & s' & w' & HR & Hc & Hv & Ho & _ & Hm).
  simpl in Hm. destruct Hm as (-> & Hid & _).
  exists rc, s', w'. split; [exact HR|]. split; [exact Hc|].
  split; [exact Hv|]. split; [|exact Hid].
  rewrite Ho by discriminate. reflexivity.
Defined.

(** X17. Run followed by Cleanup kills exactly what Run started: for a
    fresh Run step, Cleanup asks the driver to kill the id that
    [StartContainer] returned, once, when the start succeeded with a
    non-empty id, and asks for no kill when the start failed or returned
    the empty id; in every case the step ends with the empty handle. *)
Theorem StepRun_Run_then_Cleanup (s : StepRun.t) (w : World) (config : Config)
    (tempDir : string) (driver : Driver) :
  StepRun.containerId s = "" ->
  bag w !! "ui" = Some VUi ->
  bag w !! "config" = Some (VConfig config) ->
  bag w !! "temp_dir" = Some (VString tempDir) ->
  bag w !! "driver" = Some (VDriver driver) ->
  exists runConfig a s1 w1 s2 w2,
    StepRun.Run s w = Returned (a, s1) w1
    /\ StepRun.Cleanup s1 w1 = Returned s2 w2
    /\ StepRun.containerId s2 = ""
    /\ calls w2
       = calls w ++ CallStartContainer runConfig
         :: match drv_StartContainer driver (calls w) runConfig with
            | (id, None) =>
                if String.eqb id "" then [] else [CallKillContainer id]
            | (_, Some _) => []
            end.
Proof.
  intros Hs Hui Hcfg Htmp Hdrv. unfold StepRun.Run, halt.
  rewrite Hui, Hcfg, Htmp, Hdrv. simpl.
  match goal with
  | |- context [drv_StartContainer driver (calls w) ?rc] => exists rc
  end.
  destruct (drv_StartContainer driver (calls w) _) as [id [err|]] eqn:E.
  - do 5 eexists. split; [reflexivity|]. unfold StepRun.Cleanup.
    rewrite Hs. simpl. split; [reflexivity|]. auto.
  - destruct (String.eqb id "") eqn:Eid.
    + do 5 eexists. split; [reflexivity|]. unfold StepRun.Cleanup.
      cbn [StepRun.containerId]. rewrite Eid.
      split; [reflexivity|]. split; [|reflexivity].
      cbn [StepRun.containerId]. apply String.eqb_eq. exact Eid.
    + do 5 eexists. split; [reflexivity|]. unfold StepRun.Cleanup.
      cbn [StepRun.containerId bag ui Put called]. rewrite Eid.
      rewrite !lookup_insert_ne by discriminate. rewrite Hdrv, Hui.
      split; [reflexivity|]. split; [reflexivity|].
      cbn [calls ui Put called]. rewrite <- app_assoc. reflexivity.
Qed.

Lemma StepRun_Run_then_Cleanup_witness :
  exists runConfig a s1 w1 s2 w2,
    StepRun.Run {| StepRun.containerId := "" |}
      (demo_world (demo_driver None None)) = Returned (a, s1) w1
    /\ StepRun.Cleanup s1 w1 = Returned s2 w2
    /\ calls w2 = [CallStartContainer runConfig; CallKillContainer "c1"].
Proof.
  destruct (StepRun_Run_then_Cleanup {| StepRun.containerId := "" |}
              (demo_world (demo_driver None None)) demo_config "/tmp/packer"
              (demo_driver None None) eq_refl eq_refl eq_refl eq_refl eq_refl)
    as (rc & a & s1 & w1 & s2 & w2 & HR & HC & _ & Hc).
  exists rc, a, s1, w1, s2, w2. auto.
Defined.

(* ===================================================================== *)
(** ** The Connect step                                                   *)
(* ===================================================================== *)



(** X19. With its four prerequisites in the bag, the Connect step never
    panics and continues only if the driver reports its version and the
    inspect command succeeds.  Otherwise it halts with the error under
    ["error"] and stores no Communicator; when the version cannot be read,
    the inspect command is not run at all. *)
Theorem StepConnect_failures (TrimSpace Errorf : string -> string)
    (env : ConnectEnv) (state : gmap string ConnValue) (config : Config)
    (containerId tempDir : string) (driver : Driver) :
  state !! "config" = Some (CVal (VConfig config)) ->
  state !! "container_id" = Some (CVal (VString containerId)) ->
  state !! "driver" = Some (CVal (VDriver driver)) ->
  state !! "temp_dir" = Some (CVal (VString tempDir)) ->
  exists a b evs,
    StepConnectPodman.Run TrimSpace Errorf env state = ConnReturned a b evs
    /\ (a = ActionContinue
        <-> snd (ce_version env) = None
            /\ exists stdout, ce_inspect env = InspectOk stdout)
    /\ (a = ActionHalt ->
        b !! "communicator" = state !! "communicator"
        /\ exists err,
            b = <["error" := CVal (VError err)]> state
            /\ match ce_version env, ce_inspect env with
               | (_, Some verr), _ => err = verr /\ evs = []
               | (_, None), InspectExitError e stderr =>
                   err = Errorf ("Failed to inspect the container: " +:+ e
                                 +:+ ", " +:+ stderr)
               | (_, None), InspectError e =>
                   err = Errorf ("Failed to inspect the container: " +:+ e)
               | (_, None), InspectOk _ => False
               end).
Proof.
  intros Hc Hi Hd Ht. unfold StepConnectPodman.Run.
  rewrite Hc, Hi, Hd, Ht. unfold getContainerUser.
  destruct (ce_version env) as [version [verr|]];
    [|destruct (ce_inspect env) as [stdout | e stderr | e]]; simpl;
    do 3 eexists; (split; [reflexivity|]); split;
    try (split; [discriminate | intros [H _]; discriminate H]);
    try (split; [discriminate | intros [_ [? H]]; discriminate H]);
    try (split; [eauto | reflexivity]);
    try discriminate;
    intros _; (split; [apply lookup_insert_ne; discriminate|]);
    eexists; (split; [reflexivity|]); auto.
Qed.

Lemma StepConnect_failures_witness :
  exists b,
    StepConnectPodman.Run trim_ascii (fun s => s)
      {| ce_version := ("", Some "podman: not found"); ce_inspect := InspectOk "" |}
      demo_conn_bag
    = ConnReturned ActionHalt b []
    /\ b !! "communicator" = None.
Proof.
  destruct (StepConnect_failures trim_ascii (fun s => s)
              {| ce_version := ("", Some "podman: not found");
                 ce_inspect := InspectOk "" |}
              demo_conn_bag demo_config "c1" "/tmp/packer"
              (demo_driver None None) eq_refl eq_refl eq_refl eq_refl)
    as (a & b & evs & HR & Ha & Hh).
  destruct a.
  - destruct (proj1 Ha eq_refl) as [H _]. discriminate H.
  - destruct (Hh eq_refl) as (Hcomm & err & _ & _ & Hevs).
    exists b. subst evs. split; [exact HR|]. rewrite Hcomm. reflexivity.
Defined.

(** X20. Without a configuration of the right type in the bag, the Connect
    step halts with an error recorded and does nothing else: it does not
    panic even when the container id, the driver and the scratch directory
    are missing too, and it runs no command. *)
Theorem StepConnect_without_config (TrimSpace Errorf : string -> string)
    (env : ConnectEnv) (state : gmap string ConnValue) :
  (forall config, state !! "config" <> Some (CVal (VConfig config))) ->
  StepConnectPodman.Run TrimSpace Errorf env state
  = ConnReturned ActionHalt
      (<["error" := CVal (VError "error encountered obtaining podman config")]>
         state) [].
Proof.
  intros H. unfold StepConnectPodman.Run.
  destruct (state !! "config") as [[[| config | | |]|]|] eqn:E;
    try reflexivity.
  destruct (H config eq_refl).
Qed.

Lemma StepConnect_without_config_witness :
  StepConnectPodman.Run trim_ascii (fun s => s)
    {| ce_version := ("4.9.0", None); ce_inspect := InspectOk "" |} ∅
  = ConnReturned ActionHalt
      (<["error" := CVal (VError "error encountered obtaining podman config")]> ∅)
      [].
Proof.
  apply StepConnect_without_config. intros config. discriminate.
Defined.

(* ===================================================================== *)
(** ** The preparation of the configuration                               *)
(* ===================================================================== *)

(** X21. Once the configuration is decoded, [Prepare] succeeds only if an
    image is given, exactly one of commit, discard and export_path is
    chosen, and the export path, if any, is not an existing directory; and
    when the communicator settings raise no error, these conditions are
    also sufficient. *)
Theorem Prepare_ok_iff (env : PrepareEnv) (c c1 : BuilderConfig)
    (keys : list string) :
  prep_decode env (set_config with_upload_defaults c) = inl (c1, keys) ->
  let valid :=
    Image (bc_config c1) <> ""
    /\ one_artifact_use c1 = true
    /\ (bc_ExportPath c1 <> "" ->
        prep_stat env (bc_ExportPath c1) <> Some true) in
  (snd (Prepare env c) = PrepareOk -> valid)
  /\ ((forall c', prep_comm env c' = []) -> valid ->
      snd (Prepare env c) = PrepareOk).
Proof.
  intros Hd valid. subst valid. unfold Prepare. rewrite Hd.
  unfold prepare_errors, one_artifact_use, nonempty.
  set (cd := if String.eqb (bc_CommType _) "" then _ else _).
  assert (Hf : (Image (bc_config cd), bc_ExportPath cd, bc_Commit cd,
                bc_Discard cd)
               = (Image (bc_config c1), bc_ExportPath c1, bc_Commit c1,
                  bc_Discard c1)).
  { subst cd.
    destruct (String.eqb (bc_CommType _) ""), (negb _),
      (RunCommand (bc_config c1)); reflexivity. }
  injection Hf as -> -> -> ->.
  split.
  - destruct (prep_comm env cd); [|discriminate].
    destruct (String.eqb_spec (Image (bc_config c1)) ""); [discriminate|].
    destruct (String.eqb_spec (bc_ExportPath c1) ""),
      (bc_Commit c1), (bc_Discard c1); simpl; try discriminate;
      try (intros _; split; [assumption|]; split; [reflexivity|];
           intros; congruence).
    destruct (prep_stat env (bc_ExportPath c1)) as [[]|]; simpl;
      try discriminate;
      intros _; (split; [assumption|]); (split; [reflexivity|]);
      intros _; discriminate.
  - intros Hcomm (Hi & Ho & Hs). rewrite Hcomm.
    destruct (String.eqb_spec (Image (bc_config c1)) ""); [contradiction|].
    destruct (String.eqb_spec (bc_ExportPath c1) ""),
      (bc_Commit c1), (bc_Discard c1); simpl in *; try discriminate Ho;
      try reflexivity.
    destruct (prep_stat env (bc_ExportPath c1)) as [[]|]; simpl;
      try reflexivity.
    destruct (Hs n0 eq_refl).
Qed.

Lemma Prepare_ok_iff_witness :
  snd (Prepare demo_prepare_env demo_builder_config) = PrepareOk.
Proof.
  refine (proj2 (Prepare_ok_iff demo_prepare_env demo_builder_config _ _
                   eq_refl) (fun _ => eq_refl) _).
  split; [discriminate|]. split; [reflexivity|]. intros H. destruct (H eq_refl).
Defined.

(** X22. Once the configuration is decoded, [Prepare] leaves it with its
    defaults filled in, also when it then reports errors: the run command
    and the container directory are never empty and keep a value that was
    given, the communicator type is never empty, [pull] is on unless the
    key was set, and image, commit, discard and export path are what was
    decoded. *)
Theorem Prepare_defaults (env : PrepareEnv) (c c1 : BuilderConfig)
    (keys : list string) :
  prep_decode env (set_config with_upload_defaults c) = inl (c1, keys) ->
  let c' := fst (Prepare env c) in
  RunCommand (bc_config c') <> []
  /\ (RunCommand (bc_config c1) <> [] ->
      RunCommand (bc_config c') = RunCommand (bc_config c1))
  /\ ContainerDir_cfg (bc_config c') <> ""
  /\ (ContainerDir_cfg (bc_config c1) <> "" ->
      ContainerDir_cfg (bc_config c') = ContainerDir_cfg (bc_config c1))
  /\ bc_CommType c' <> ""
  /\ (bc_CommType c1 <> "" -> bc_CommType c' = bc_CommType c1)
  /\ Pull (bc_config c')
     = (if existsb (fun k => String.eqb k "pull") keys
        then Pull (bc_config c1) else true)
  /\ (Image (bc_config c'), bc_Commit c', bc_Discard c', bc_ExportPath c')
     = (Image (bc_config c1), bc_Commit c1, bc_Discard c1, bc_ExportPath c1).
Proof.
  intros Hd c'. subst c'. unfold Prepare. rewrite Hd.
  destruct c1 as [cfg ty cm di ex]. simpl.
  destruct (RunCommand cfg) eqn:Er; simpl;
    destruct (existsb (fun k => String.eqb k "pull") keys); simpl;
    destruct (String.eqb_spec ty ""); simpl;
    destruct (String.eqb_spec (ContainerDir_cfg cfg) "") as [Ec|Ec]; simpl;
    destruct (prepare_errors env _); simpl;
    rewrite ?Er;
    repeat split; try discriminate; try congruence; auto.
Qed.

Lemma Prepare_defaults_witness :
  RunCommand (bc_config (fst (Prepare demo_prepare_env demo_builder_config)))
  = ["-d"; "-i"; "-t"; "--entrypoint=/bin/sh"; "--"; "{{.Image}}"]
  /\ bc_CommType (fst (Prepare demo_prepare_env demo_builder_config)) <> ""
  /\ Pull (bc_config (fst (Prepare demo_prepare_env demo_builder_config)))
     = true.
Proof.
  destruct (Prepare_defaults demo_prepare_env demo_builder_config _ _ eq_refl)
    as (_ & Hr & _ & _ & Ht & _ & Hp & _).
  split; [|split; [exact Ht | exact Hp]].
  rewrite Hr; [reflexivity|discriminate].
Defined.
